(** * GitHub repository batch checker: a model of [github_checker.py]

    The development follows the script top to bottom: Python strings and the
    few [str] methods the script calls, the subset of [re] that its two
    patterns use, [extract_repo_info], [check_repo], [check_repos_batch],
    and [main] with its summary loop. *)

From Stdlib Require Import Ascii String DecimalString DecimalPos DecimalZ.
From Stdlib Require Import List NArith ZArith Lia Bool Permutation.
Import ListNotations.

Set Implicit Arguments.

(** ** Python strings

    A [str] is a sequence of Unicode code points. *)

Definition pychar := N.
Definition pystr := list pychar.

(** ASCII literals of the script. *)
Definition py (s : string) : pystr :=
  map N_of_ascii (list_ascii_of_string s).

Definition slash : pychar := 47%N.
Definition newline : pychar := 10%N.

Fixpoint str_eqb (a b : pystr) : bool :=
  match a, b with
  | [], [] => true
  | x :: a', y :: b' => N.eqb x y && str_eqb a' b'
  | _, _ => false
  end.

(** [s.startswith(p)] *)
Fixpoint startswith (p s : pystr) : bool :=
  match p, s with
  | [], _ => true
  | x :: p', y :: s' => N.eqb x y && startswith p' s'
  | _ :: _, [] => false
  end.

(** [sub in s] *)
Fixpoint contains (sub s : pystr) : bool :=
  startswith sub s ||
  match s with
  | [] => false
  | _ :: s' => contains sub s'
  end.

Fixpoint drop_while (f : pychar -> bool) (s : pystr) : pystr :=
  match s with
  | [] => []
  | c :: s' => if f c then drop_while f s' else s
  end.

Definition char_in (chars : pystr) (c : pychar) : bool :=
  existsb (N.eqb c) chars.

(** [s.rstrip(chars)]: removes every trailing character that belongs to the
    set [chars]. *)
Definition rstrip (chars s : pystr) : pystr :=
  rev (drop_while (char_in chars) (rev s)).

(** [c.isspace()]: the code points Python treats as whitespace. *)
Definition isspace (c : pychar) : bool :=
  ((9 <=? c) && (c <=? 13) || (28 <=? c) && (c <=? 32)
   || (c =? 133) || (c =? 160) || (c =? 5760)
   || (8192 <=? c) && (c <=? 8202)
   || (c =? 8232) || (c =? 8233) || (c =? 8239) || (c =? 8287)
   || (c =? 12288))%N.

(** [s.strip()] *)
Definition strip (s : pystr) : pystr :=
  rev (drop_while isspace (rev (drop_while isspace s))).

(** Truth value of a string: [not s] holds for the empty string. *)
Definition truthy (s : pystr) : bool :=
  match s with [] => false | _ :: _ => true end.

(** [str(n)] for an [int]. *)
Definition str_int (n : Z) : pystr :=
  py (NilZero.string_of_int (Z.to_int n)).

(** ** The fragment of [re] used by the patterns

    Literal text, [[^c]+] and [[^c]+?], capturing groups, a greedy optional
    non-capturing group, and [$].  Matching is by backtracking with the
    priorities of [re]: a greedy operator tries the longer alternative
    first, a lazy one the shorter. *)

Inductive regex : Type :=
| Lit (text : pystr)                     (* literal characters *)
| PlusNot (greedy : bool) (c : pychar)   (* [^c]+  and  [^c]+? *)
| Grp (i : nat) (r : regex)              (* ( r ), group number i *)
| Opt (r : regex)                        (* (?: r )? *)
| Eos                                    (* $ *)
| Cat (r1 r2 : regex).

(** Group contents of a match; a group that did not take part is [None]. *)
Definition groups_t := nat -> option pystr.

Definition no_groups : groups_t := fun _ => None.

Definition set_group (i : nat) (v : pystr) (g : groups_t) : groups_t :=
  fun j => if Nat.eqb j i then Some v else g j.

Definition orelse {A} (a b : option A) : option A :=
  match a with Some _ => a | None => b end.

(** [strip_prefix p s] is the rest of [s] after the prefix [p]. *)
Fixpoint strip_prefix (p s : pystr) : option pystr :=
  match p, s with
  | [], _ => Some s
  | x :: p', y :: s' => if N.eqb x y then strip_prefix p' s' else None
  | _ :: _, [] => None
  end.

Section Matcher.
Variable A : Type.

(** One or more characters other than [c], then the continuation [k]. *)
Fixpoint plus_not (greedy : bool) (c : pychar) (s : pystr)
         (k : pystr -> option A) : option A :=
  match s with
  | [] => None
  | x :: s' =>
      if N.eqb x c then None
      else if greedy then orelse (plus_not greedy c s' k) (k s')
           else orelse (k s') (plus_not greedy c s' k)
  end.

(** [$] holds at the end of the string and just before a newline that ends
    the string. *)
Definition at_end (s : pystr) : bool :=
  match s with
  | [] => true
  | [x] => N.eqb x newline
  | _ => false
  end.

Fixpoint match_re (r : regex) (s : pystr) (g : groups_t)
         (k : pystr -> groups_t -> option A) : option A :=
  match r with
  | Lit text =>
      match strip_prefix text s with
      | Some s' => k s' g
      | None => None
      end
  | PlusNot greedy c => plus_not greedy c s (fun s' => k s' g)
  | Grp i r1 =>
      match_re r1 s g
        (fun s' g' =>
           k s' (set_group i (firstn (length s - length s') s) g'))
  | Opt r1 => orelse (match_re r1 s g k) (k s g)
  | Eos => if at_end s then k s g else None
  | Cat r1 r2 => match_re r1 s g (fun s' g' => match_re r2 s' g' k)
  end.
End Matcher.

(** [re.search(pattern, s)]: the match at the leftmost start position. *)
Fixpoint re_search (r : regex) (s : pystr) : option groups_t :=
  orelse (match_re r s no_groups (fun _ g => Some g))
         (match s with
          | [] => None
          | _ :: s' => re_search r s'
          end).

(** ** [GitHubRepoChecker.extract_repo_info] *)

(** [r'github\.com/([^/]+)/([^/]+?)(?:\.git)?/?$'] *)
Definition pattern_exact : regex :=
  Cat (Lit (py "github.com/"))
 (Cat (Grp 1 (PlusNot true slash))
 (Cat (Lit (py "/"))
 (Cat (Grp 2 (PlusNot false slash))
 (Cat (Opt (Lit (py ".git")))
 (Cat (Opt (Lit (py "/")))
      Eos))))).

(** [r'github\.com/([^/]+)/([^/]+)'] *)
Definition pattern_loose : regex :=
  Cat (Lit (py "github.com/"))
 (Cat (Grp 1 (PlusNot true slash))
 (Cat (Lit (py "/"))
      (Grp 2 (PlusNot true slash)))).

Definition patterns : list regex := [pattern_exact; pattern_loose].

(** The loop over [patterns]: the first pattern that matches decides.  Both
    groups are mandatory in both patterns, so [rstrip] always receives a
    string (lemma [search_groups_present]). *)
Fixpoint first_match (ps : list regex) (url : pystr)
  : option pystr * option pystr :=
  match ps with
  | [] => (None, None)
  | pattern :: rest =>
      match re_search pattern url with
      | Some m =>
          let owner := m 1 in
          let repo := m 2 in
          let repo := option_map (rstrip (py ".git")) repo in
          (owner, repo)
      | None => first_match rest url
      end
  end.

Definition extract_repo_info (url : pystr) : option pystr * option pystr :=
  first_match patterns url.

(** ** Exceptions, JSON values and the HTTP session *)

(** The exception classes the script distinguishes.  [RequestException]
    stands for [requests.exceptions.RequestException] and all its subclasses
    (connection errors, timeouts, ...); [OtherException] for any class that
    is none of the others. *)
Inductive exc_class : Type :=
| RequestException
| FileNotFoundError
| AttributeError
| ValueError
| OtherException.

(** An exception object; [exc_text e] is [str(e)]. *)
Record exn : Type := Exn { exc_class_of : exc_class; exc_text : pystr }.

Definition is_request_exception (e : exn) : bool :=
  match exc_class_of e with RequestException => true | _ => false end.

Definition is_file_not_found (e : exn) : bool :=
  match exc_class_of e with FileNotFoundError => true | _ => false end.

(** A computation that returns a value or raises. *)
Inductive outcome (A : Type) : Type :=
| Return (a : A)
| Raise (e : exn).
Arguments Return {A} a.
Arguments Raise {A} e.

Definition bind {A B} (o : outcome A) (f : A -> outcome B) : outcome B :=
  match o with
  | Return a => f a
  | Raise e => Raise e
  end.

(** [try: body  except RequestException as e: handler(e)] *)
Definition try_except_request {A} (body : outcome A) (handler : exn -> outcome A)
  : outcome A :=
  match body with
  | Return a => Return a
  | Raise e => if is_request_exception e then handler e else Raise e
  end.

(** Values produced by [response.json()].  A [dict] is given by its items;
    keys are distinct in a Python dict.  No arithmetic is done on the
    values, so a [float] is kept as the literal it was read from. *)
#[local] Unset Elimination Schemes.
Inductive pyvalue : Type :=
| PyNone
| PyBool (b : bool)
| PyInt (n : Z)
| PyFloat (literal : pystr)
| PyStr (s : pystr)
| PyList (items : list pyvalue)
| PyDict (items : list (pystr * pyvalue)).
#[local] Set Elimination Schemes.

(** [d.get(key, default)] on the items of a dict. *)
Fixpoint dict_get {V} (d : list (pystr * V)) (key : pystr) (default : V) : V :=
  match d with
  | [] => default
  | (k, v) :: d' => if str_eqb k key then v else dict_get d' key default
  end.

(** [d[key] = v]: replaces the value of an existing key in place, appends a
    new key at the end (dicts keep insertion order). *)
Fixpoint dict_set {V} (d : list (pystr * V)) (key : pystr) (v : V)
  : list (pystr * V) :=
  match d with
  | [] => [(key, v)]
  | (k, v') :: d' =>
      if str_eqb k key then (k, v) :: d' else (k, v') :: dict_set d' key v
  end.

Definition type_name (v : pyvalue) : pystr :=
  match v with
  | PyNone => py "NoneType"
  | PyBool _ => py "bool"
  | PyInt _ => py "int"
  | PyFloat _ => py "float"
  | PyStr _ => py "str"
  | PyList _ => py "list"
  | PyDict _ => py "dict"
  end.

(** [v.get(key, default)]: only a dict has the method. *)
Definition py_get (v : pyvalue) (key : pystr) (default : pyvalue)
  : outcome pyvalue :=
  match v with
  | PyDict d => Return (dict_get d key default)
  | _ => Raise (Exn AttributeError
                  (py "'" ++ type_name v ++ py "' object has no attribute 'get'"))
  end.

(** A [requests.Response]: the status code and what [response.json()]
    gives. *)
Record response : Type := Response {
  status_code : Z;
  json : outcome pyvalue
}.

(** The GET request [session.get(api_url, timeout=10)] sends. *)
Record request : Type := Request {
  req_url : pystr;
  req_headers : list (pystr * pystr);
  req_timeout : Z
}.

(** The remote side: what [session.get] does for a request. *)
Definition network := request -> outcome response.

(** The checker object: the session's default headers and [max_workers]. *)
Record GitHubRepoChecker : Type := Checker {
  session_headers : list (pystr * pystr);
  max_workers : Z
}.

(** What depends on the installed [requests]: the two default headers whose
    values change with its version. *)
Record requests_lib : Type := RequestsLib {
  default_user_agent : pystr;        (* requests.utils.default_user_agent() *)
  default_accept_encoding : pystr    (* requests.utils.DEFAULT_ACCEPT_ENCODING *)
}.

(** The headers of a new [requests.Session()]. *)
Definition default_headers (lib : requests_lib) : list (pystr * pystr) :=
  [(py "User-Agent", default_user_agent lib);
   (py "Accept-Encoding", default_accept_encoding lib);
   (py "Accept", py "*/*");
   (py "Connection", py "keep-alive")].

(** [GitHubRepoChecker.__init__(token, max_workers)]: a new session, whose
    headers [headers.update] extends with [Authorization] when a token is
    given; [main] relies on the default [max_workers=10]. *)
Definition init (lib : requests_lib) (token : option pystr) (workers : Z)
  : GitHubRepoChecker :=
  let session := default_headers lib in
  match token with
  | Some t =>
      if truthy t
      then Checker (dict_set session (py "Authorization") (py "token " ++ t))
                   workers
      else Checker session workers
  | None => Checker session workers
  end.

(** ** [GitHubRepoChecker.check_repo] *)

(** The dict [check_repo] returns; the last three keys exist only in an
    [EXISTS] result. *)
Module ProbeResult.
Record t : Type := mk {
  url : pystr;
  status : pystr;
  message : pystr;
  private : option pyvalue;
  archived : option pyvalue;
  stars : option pyvalue
}.
End ProbeResult.

Definition check_mark : pystr := [10003%N].    (* U+2713 *)
Definition ballot_x : pystr := [10007%N].      (* U+2717 *)
Definition warning_sign : pystr := [9888%N].   (* U+26A0 *)

Definition api_url_of (owner repo : pystr) : pystr :=
  py "https://api.github.com/repos/" ++ owner ++ py "/" ++ repo.

Definition invalid_url_result (url : pystr) : ProbeResult.t :=
  ProbeResult.mk url (py "INVALID_URL") (py "Could not parse GitHub URL")
                 None None None.

(** The body of the [try] block, for a parsed [owner] and [repo]. *)
Definition classify (url owner repo : pystr) (got : outcome response)
  : outcome ProbeResult.t :=
  bind got (fun response =>
    if (status_code response =? 200)%Z then
      bind (json response) (fun repo_data =>
      bind (py_get repo_data (py "private") (PyBool false)) (fun private =>
      bind (py_get repo_data (py "archived") (PyBool false)) (fun archived =>
      bind (py_get repo_data (py "stargazers_count") (PyInt 0)) (fun stars =>
        Return (ProbeResult.mk url (py "EXISTS")
                  (check_mark ++ py " " ++ owner ++ py "/" ++ repo)
                  (Some private) (Some archived) (Some stars))))))
    else if (status_code response =? 404)%Z then
      Return (ProbeResult.mk url (py "NOT_FOUND")
                (ballot_x ++ py " " ++ owner ++ py "/" ++ repo
                   ++ py " - Repository not found")
                None None None)
    else if (status_code response =? 403)%Z then
      Return (ProbeResult.mk url (py "FORBIDDEN")
                (warning_sign ++ py " " ++ owner ++ py "/" ++ repo
                   ++ py " - Access denied (private or rate limited)")
                None None None)
    else
      Return (ProbeResult.mk url (py "ERROR")
                (py "? " ++ owner ++ py "/" ++ repo ++ py " - HTTP "
                   ++ str_int (status_code response))
                None None None)).

(** The [except] clause. *)
Definition network_error (url owner repo : pystr) (e : exn)
  : outcome ProbeResult.t :=
  Return (ProbeResult.mk url (py "ERROR")
            (ballot_x ++ py " " ++ owner ++ py "/" ++ repo
               ++ py " - Network error: " ++ exc_text e)
            None None None).

(** [check_repo] gives the requests it sent together with its result. *)
Definition check_repo (self : GitHubRepoChecker) (net : network) (url : pystr)
  : list request * outcome ProbeResult.t :=
  match extract_repo_info url with
  | (Some owner, Some repo) =>
      if negb (truthy owner) || negb (truthy repo) then
        ([], Return (invalid_url_result url))
      else
        let api_url := api_url_of owner repo in
        let req := Request api_url (session_headers self) 10 in
        ([req],
         try_except_request (classify url owner repo (net req))
                            (network_error url owner repo))
  | _ => ([], Return (invalid_url_result url))
  end.

(** ** [GitHubRepoChecker.check_repos_batch] *)

(** What a run of the batch leaves behind: the value returned or the
    exception raised, the state the progress callback acts on, the number of
    [time.sleep(0.1)] calls, and the requests of the submitted tasks. *)
Record batch_run (S : Type) : Type := BatchRun {
  returned : outcome (list ProbeResult.t);
  callback_state : S;
  sleeps : nat;
  requests : list request
}.

Section Batch.
Variable S : Type.

(** The progress callback, called as
    [progress_callback(completed, total, result)]. *)
Definition callback := nat -> nat -> ProbeResult.t -> S -> S.

(** [as_completed]: the futures in the order in which they complete,
    [completion] listing their submission indices. *)
Definition as_completed {F} (futures : list F) (completion : list nat)
  : list F :=
  flat_map (fun i => match nth_error futures i with
                     | Some f => [f]
                     | None => []
                     end) completion.

(** The [for i, future in enumerate(...)] loop.  [future.result()] raises
    again what the task raised. *)
Fixpoint reap (total : nat) (progress_callback : option callback)
         (i : nat) (futures : list (outcome ProbeResult.t))
         (results : list ProbeResult.t) (st : S) (slept : nat)
  : outcome (list ProbeResult.t) * S * nat :=
  match futures with
  | [] => (Return results, st, slept)
  | future :: rest =>
      match future with
      | Raise e => (Raise e, st, slept)
      | Return result =>
          let results := results ++ [result] in
          let st := match progress_callback with
                    | Some cb => cb (i + 1) total result st
                    | None => st
                    end in
          reap total progress_callback (i + 1) rest results st (slept + 1)
      end
  end.

(** [ThreadPoolExecutor(max_workers=...)] refuses a pool without workers.
    Every submitted task runs, also when the loop is left by an
    exception: leaving the [with] block waits for the pool. *)
Definition check_repos_batch (self : GitHubRepoChecker) (net : network)
           (completion : list nat)
           (urls : list pystr) (progress_callback : option callback)
           (st : S) : batch_run S :=
  if (max_workers self <=? 0)%Z then
    BatchRun (Raise (Exn ValueError (py "max_workers must be greater than 0")))
             st 0 []
  else
    let tasks := map (check_repo self net) urls in
    let futures := map snd tasks in
    let '(ret, st', slept) :=
      reap (length urls) progress_callback 0
           (as_completed futures completion) [] st 0 in
    BatchRun ret st' slept (flat_map fst tasks).
End Batch.

(** ** [progress_callback] and [main] *)

(** Standard output: the argument of each [print] call, in order. *)
Definition stdout := list pystr.

Definition str_nat (n : nat) : pystr := str_int (Z.of_nat n).

Definition progress_callback (completed total : nat) (result : ProbeResult.t)
           (out : stdout) : stdout :=
  out ++ [py "[" ++ str_nat completed ++ py "/" ++ str_nat total ++ py "] "
             ++ ProbeResult.message result].

(** The summary loop of [main] (the [for result in results] loop):
    [status_counts] and [dead_links]. *)
Definition tally (acc : list (pystr * nat) * list pystr)
           (result : ProbeResult.t) : list (pystr * nat) * list pystr :=
  let '(status_counts, dead_links) := acc in
  let status := ProbeResult.status result in
  let status_counts :=
    dict_set status_counts status (dict_get status_counts status 0 + 1) in
  if existsb (str_eqb status) [py "NOT_FOUND"; py "ERROR"]
  then (status_counts, dead_links ++ [ProbeResult.url result])
  else (status_counts, dead_links).

Definition summarise (results : list ProbeResult.t)
  : list (pystr * nat) * list pystr :=
  fold_left tally results ([], []).

(** How the process ends: [main] returns, [sys.exit(code)] is called, or an
    exception leaves [main] (the interpreter then prints the traceback). *)
Inductive ending : Type :=
| Finished
| SysExit (code : Z)
| Uncaught (e : exn).


(** What the script reads from outside: the command line, the file system
    ([open] and the lines the file iterates over), the remote side, the
    order in which the tasks complete, and the installed [requests]. *)
Record world : Type := World {
  argv : list pystr;
  open_lines : pystr -> outcome (list pystr);
  net : network;
  completion : list nat;
  requests_defaults : requests_lib
}.

Definition usage : stdout :=
  [py "Usage: python github_checker.py <file_with_urls.txt> [github_token]";
   newline :: py "File should contain one GitHub URL per line";
   py "GitHub token is optional but recommended for higher rate limits"].

(** The filter of the list comprehension. *)
Definition qualifies (line : pystr) : bool :=
  truthy (strip line) && contains (py "github.com") line.

Definition read_urls (lines : list pystr) : list pystr :=
  map strip (filter qualifies lines).

Definition rule : pystr := repeat 61%N 50.   (* "="*50 *)

Definition print_summary (results : list ProbeResult.t) (out : stdout)
  : stdout :=
  let out := out ++ [newline :: rule; py "SUMMARY"; rule] in
  let '(status_counts, dead_links) := summarise results in
  let out :=
    out ++ map (fun '(status, count) => status ++ py ": " ++ str_nat count)
               status_counts in
  match dead_links with
  | [] => out
  | _ :: _ =>
      out ++ [newline :: py "Dead/Problematic Links ("
                ++ str_nat (length dead_links) ++ py "):"]
          ++ map (fun url => py "  " ++ url) dead_links
  end.

Definition main (w : world) : stdout * ending :=
  match argv w with
  | [] | [_] => (usage, SysExit 1)
  | _ :: filename :: rest =>
      let token := match rest with t :: _ => Some t | [] => None end in
      match open_lines w filename with
      | Raise e =>
          if is_file_not_found e
          then ([py "Error: File '" ++ filename ++ py "' not found"], SysExit 1)
          else ([], Uncaught e)
      | Return lines =>
          let urls := read_urls lines in
          match urls with
          | [] => ([py "No GitHub URLs found in the file"], SysExit 1)
          | _ :: _ =>
              let out := [py "Found " ++ str_nat (length urls)
                            ++ py " GitHub URLs to check..."] in
              let checker := init (requests_defaults w) token 10 in
              let run := check_repos_batch checker (net w) (completion w)
                                           urls (Some progress_callback) out in
              match returned run with
              | Raise e => (callback_state run, Uncaught e)
              | Return results =>
                  (print_summary results (callback_state run), Finished)
              end
          end
      end
  end.

(** ** HTTP outcomes

    What the remote side can answer to the GET: a response with a status
    code and a JSON object as body, or a failure of the request below HTTP
    (timeout, DNS, connection reset), which [requests] raises as a
    [RequestException]. *)
Inductive http_outcome : Type :=
| HttpResponse (status : Z) (body : list (pystr * pyvalue))
| NetworkFailure (text : pystr).

Definition served (o : http_outcome) : outcome response :=
  match o with
  | HttpResponse st body => Return (Response st (Return (PyDict body)))
  | NetworkFailure text => Raise (Exn RequestException text)
  end.

(** A mocked remote side: a fixed HTTP outcome per request. *)
Definition mocked (mock : request -> http_outcome) : network :=
  fun req => served (mock req).

(** A progress callback that records its calls. *)
Definition recording : callback (list (nat * nat * ProbeResult.t)) :=
  fun completed total result calls => calls ++ [(completed, total, result)].

(** The five status strings. *)
Definition status_kinds : list pystr :=
  [py "INVALID_URL"; py "EXISTS"; py "NOT_FOUND"; py "FORBIDDEN"; py "ERROR"].

(** A dead link: a result whose status is [NOT_FOUND] or [ERROR]. *)
Definition is_dead (result : ProbeResult.t) : bool :=
  str_eqb (ProbeResult.status result) (py "NOT_FOUND")
  || str_eqb (ProbeResult.status result) (py "ERROR").

(** Number of results with a given status. *)
Definition occurrences (st : pystr) (results : list ProbeResult.t) : nat :=
  length (filter (fun r => str_eqb (ProbeResult.status r) st) results).

(** ** What a pattern matches

    [matches r s g s' g']: [r] can consume a prefix of [s] leaving [s'],
    taking the groups from [g] to [g'].  The matcher above explores exactly
    these possibilities, in the order of [re]. *)
Fixpoint matches (r : regex) (s : pystr) (g : groups_t)
         (s' : pystr) (g' : groups_t) : Prop :=
  match r with
  | Lit text => s = text ++ s' /\ g' = g
  | PlusNot _ c => exists w, w <> [] /\ ~ In c w /\ s = w ++ s' /\ g' = g
  | Grp i r1 =>
      exists g1, matches r1 s g s' g1
                 /\ g' = set_group i (firstn (length s - length s') s) g1
  | Opt r1 => matches r1 s g s' g' \/ (s' = s /\ g' = g)
  | Eos => s' = s /\ g' = g /\ (s = [] \/ s = [newline])
  | Cat r1 r2 => exists s1 g1, matches r1 s g s1 g1 /\ matches r2 s1 g1 s' g'
  end.

(** The shape of the text a pattern matched, with the contents of its two
    groups. *)
Definition repo_shape (s0 owner raw tail : pystr) (m : groups_t) : Prop :=
  s0 = py "github.com/" ++ owner ++ py "/" ++ raw ++ tail
  /\ owner <> [] /\ ~ In slash owner
  /\ raw <> [] /\ ~ In slash raw
  /\ m 1 = Some owner /\ m 2 = Some raw.

(** A request outcome whose failure, if any, the [except] clause of
    [check_repo] catches: a raised [RequestException], or a response whose
    body, when the status is 200, is a JSON object or whose [json()] raises a
    [RequestException]. *)
Definition catchable (got : outcome response) : bool :=
  match got with
  | Raise e => is_request_exception e
  | Return resp =>
      if (status_code resp =? 200)%Z then
        match json resp with
        | Raise e => is_request_exception e
        | Return (PyDict _) => true
        | Return _ => false
        end
      else true
  end.

(** The report of a run, as [main] computes it: the batch (with
    [progress_callback] printing) followed by the summary loop. *)
Definition batch_report (self : GitHubRepoChecker) (net : network)
           (completion : list nat) (urls : list pystr)
  : outcome (list (pystr * nat) * list pystr) :=
  bind (returned (check_repos_batch self net completion urls
                                    (Some progress_callback) []))
       (fun results => Return (summarise results)).

(** What the progress callback has done to its state once it has been
    called for the results [rs], the first call counting [from]. *)
Definition notified {S : Type} (total : nat) (pc : option (callback S))
           (from : nat) (rs : list ProbeResult.t) (st : S) : S :=
  fold_left (fun (st : S) (jr : nat * ProbeResult.t) =>
               match pc with
               | Some cb => cb (fst jr) total (snd jr) st
               | None => st
               end)
            (combine (seq from (length rs)) rs) st.

(** ** Notions used to state the properties *)

(** [sub] occurs in [s]. *)
Definition occurs_in (sub s : pystr) : Prop :=
  exists before after, s = before ++ sub ++ after.

(** The integer a text denotes in decimal, if it is a decimal numeral. *)
Definition unpy (s : pystr) : string :=
  string_of_list_ascii (map ascii_of_N s).

Definition decimal_value (s : pystr) : option Z :=
  option_map Z.of_int (NilZero.int_of_string (unpy s)).

(** Number of places of [s] at which [sub] starts. *)
Fixpoint count_starts (sub s : pystr) : nat :=
  (if startswith sub s then 1 else 0)
  + match s with
    | [] => 0
    | _ :: s' => count_starts sub s'
    end.

(** Remote sides that answer every request with status 200 and a body that
    is JSON [null], or that [response.json()] cannot decode (the error
    being, as in current versions of [requests], a [RequestException]). *)
Definition net_null_body : network :=
  fun _ => Return (Response 200 (Return PyNone)).

Definition net_not_json : network :=
  fun _ => Return (Response 200
                     (Raise (Exn RequestException
                               (py "Expecting value: line 1 column 1 (char 0)")))).

(** ** Sample inputs *)

Definition stock_requests : requests_lib :=
  RequestsLib (py "python-requests/2.31.0") (py "gzip, deflate").

Definition url_ab : pystr := py "github.com/a/b".
Definition url_cd : pystr := py "github.com/c/d".

(** A remote side that answers 200 with the JSON array [[]] for [a/b] and
    200 with the JSON object [{}] for every other repository. *)
Definition net_array_body : network :=
  fun req =>
    if str_eqb (req_url req) (api_url_of (py "a") (py "b"))
    then Return (Response 200 (Return (PyList [])))
    else Return (Response 200 (Return (PyDict []))).

(** A mocked remote side: the request for [a/b] times out, every other
    repository exists. *)
Definition mock_timeout_ab : request -> http_outcome :=
  fun req =>
    if str_eqb (req_url req) (api_url_of (py "a") (py "b"))
    then NetworkFailure (py "Read timed out. (read timeout=10)")
    else HttpResponse 200 [(py "stargazers_count", PyInt 7)].

(** A mocked remote side on which no repository exists. *)
Definition mock_all_404 : request -> http_outcome :=
  fun _ => HttpResponse 404 [].

(** A file with one line, the URL [github.com/a/b] between blanks and ended
    by a newline, read on a remote side where no repository exists. *)
Definition line_ab : pystr := py "  " ++ url_ab ++ py " " ++ [newline].

Definition world_one_line : world :=
  World [py "github_checker.py"; py "urls.txt"]
        (fun _ => Return [line_ab])
        (mocked mock_all_404)
        [0]
        stock_requests.

(** Command lines and files for [main]. *)
Definition world_no_argument : world :=
  World [py "github_checker.py"] (fun _ => Return []) (mocked mock_all_404) []
        stock_requests.

Definition world_missing_file : world :=
  World [py "github_checker.py"; py "urls.txt"]
        (fun name => Raise (Exn FileNotFoundError
                              (py "[Errno 2] No such file or directory: '"
                                 ++ name ++ py "'")))
        (mocked mock_all_404) []
        stock_requests.

Definition world_unreadable_file : world :=
  World [py "github_checker.py"; py "urls.txt"]
        (fun name => Raise (Exn OtherException
                              (py "[Errno 13] Permission denied: '"
                                 ++ name ++ py "'")))
        (mocked mock_all_404) []
        stock_requests.

Definition world_no_urls : world :=
  World [py "github_checker.py"; py "urls.txt"]
        (fun _ => Return [py "# my repositories" ++ [newline];
                          [newline];
                          py "https://gitlab.com/a/b" ++ [newline]])
        (mocked mock_all_404) []
        stock_requests.

(** The distinct elements of a list, each at the place of its first
    occurrence. *)
Definition first_occurrences (l : list pystr) : list pystr :=
  fold_left (fun seen x => if existsb (str_eqb x) seen then seen
                           else seen ++ [x]) l [].




(** * Properties *)

Unset Implicit Arguments.

(** ** Sample runs of the parser *)

Example extract_plain :
  extract_repo_info (py "https://github.com/golang/go")
  = (Some (py "golang"), Some (py "go")).
Proof. reflexivity. Qed.

Example extract_dotgit :
  extract_repo_info (py "https://github.com/rocq-prover/rocq.git/")
  = (Some (py "rocq-prover"), Some (py "rocq")).
Proof. reflexivity. Qed.

Example extract_deep :
  extract_repo_info (py "github.com/owner/repo/tree/main")
  = (Some (py "owner"), Some (py "repo")).
Proof. reflexivity. Qed.

Example str_int_samples :
  str_int 0 = py "0" /\ str_int 404 = py "404" /\ str_int (-7) = py "-7".
Proof. repeat split; reflexivity. Qed.

Example extract_none :
  extract_repo_info (py "not-a-url") = (None, None).
Proof. reflexivity. Qed.

Example extract_widget :
  extract_repo_info (py "github.com/owner/widget")
  = (Some (py "owner"), Some (py "widge")).
Proof. reflexivity. Qed.

(** ** Strings *)

Lemma str_eqb_eq (a b : pystr) : str_eqb a b = true <-> a = b.
Proof.
  revert b; induction a as [|x a IH]; intros [|y b]; simpl;
    try (split; [discriminate | congruence]); try tauto.
  rewrite andb_true_iff, N.eqb_eq, IH.
  split; [intros [-> ->]; reflexivity | intros H; inversion H; auto].
Qed.

Lemma str_eqb_refl (a : pystr) : str_eqb a a = true.
Proof. apply str_eqb_eq; reflexivity. Qed.

Lemma strip_prefix_app (p s : pystr) : strip_prefix p (p ++ s) = Some s.
Proof.
  induction p as [|x p IH]; simpl; [reflexivity|].
  rewrite N.eqb_refl; exact IH.
Qed.

Lemma strip_prefix_sound (p s s' : pystr) :
  strip_prefix p s = Some s' -> s = p ++ s'.
Proof.
  revert s; induction p as [|x p IH]; intros s; simpl.
  - congruence.
  - destruct s as [|y s]; [discriminate|].
    destruct (N.eqb x y) eqn:E; [|discriminate].
    apply N.eqb_eq in E; subst y. intros H; f_equal; auto.
Qed.

Lemma startswith_app (p s : pystr) : startswith p (p ++ s) = true.
Proof.
  induction p as [|x p IH]; simpl; [reflexivity|].
  rewrite N.eqb_refl; exact IH.
Qed.

Lemma contains_app (sub a b : pystr) : contains sub (a ++ sub ++ b) = true.
Proof.
  induction a as [|x a IH]; simpl.
  - destruct (sub ++ b) eqn:E; simpl; rewrite <- E, startswith_app;
      reflexivity.
  - rewrite IH; apply orb_true_r.
Qed.

Lemma contains_sound (sub s : pystr) :
  contains sub s = true -> exists a b, s = a ++ sub ++ b.
Proof.
  assert (P : forall p t, startswith p t = true -> exists b, t = p ++ b).
  { induction p as [|x p IH]; intros [|y t]; simpl; try discriminate;
      try (eexists; reflexivity).
    rewrite andb_true_iff, N.eqb_eq; intros [-> H].
    destruct (IH _ H) as [b ->]; exists b; reflexivity. }
  induction s as [|c s IH]; simpl; rewrite orb_true_iff.
  - intros [H|H]; [|discriminate].
    destruct (P _ _ H) as [b Hb]; exists [], b; exact Hb.
  - intros [H|H].
    + destruct (P _ _ H) as [b Hb]; exists [], b; exact Hb.
    + destruct (IH H) as (a & b & ->); exists (c :: a), b; reflexivity.
Qed.

Lemma firstn_matched (w s' : pystr) :
  firstn (length (w ++ s') - length s') (w ++ s') = w.
Proof.
  rewrite length_app, Nat.add_sub.
  rewrite firstn_app, Nat.sub_diag, firstn_all; simpl; apply app_nil_r.
Qed.

(** ** The matcher explores what the pattern matches *)

Section MatcherFacts.
Variable A : Type.

Lemma plus_not_sound greedy c s (k : pystr -> option A) a :
  plus_not greedy c s k = Some a ->
  exists w s', s = w ++ s' /\ w <> [] /\ ~ In c w /\ k s' = Some a.
Proof.
  induction s as [|x s IH]; simpl; [discriminate|].
  destruct (N.eqb x c) eqn:E; [discriminate|].
  apply N.eqb_neq in E.
  assert (Here : k s = Some a ->
                 exists w s', x :: s = w ++ s' /\ w <> [] /\ ~ In c w
                              /\ k s' = Some a).
  { intros H; exists [x], s; repeat split; auto; try discriminate.
    simpl; intros [F|[]]; congruence. }
  assert (Later : plus_not greedy c s k = Some a ->
                  exists w s', x :: s = w ++ s' /\ w <> [] /\ ~ In c w
                               /\ k s' = Some a).
  { intros H; destruct (IH H) as (w & s' & -> & _ & Hc & Hk).
    exists (x :: w), s'; repeat split; auto; try discriminate.
    simpl; intros [F|F]; [congruence | auto]. }
  destruct greedy; unfold orelse.
  - destruct (plus_not true c s k) eqn:P; [|exact Here].
    intros H; apply Later; congruence.
  - destruct (k s) eqn:P; [|exact Later].
    intros H; apply Here; congruence.
Qed.

Lemma plus_not_complete greedy c w s' (k : pystr -> option A) :
  w <> [] -> ~ In c w -> k s' <> None ->
  plus_not greedy c (w ++ s') k <> None.
Proof.
  induction w as [|x w IH]; [congruence|].
  intros _ Hc Hk; simpl.
  destruct (N.eqb x c) eqn:E.
  { apply N.eqb_eq in E; exfalso; apply Hc; left; auto. }
  assert (Hw : ~ In c w) by (intros F; apply Hc; right; auto).
  destruct w as [|y w].
  - simpl in *. destruct greedy; unfold orelse.
    + destruct (plus_not true c s' k); [discriminate | exact Hk].
    + destruct (k s'); [discriminate | congruence].
  - assert (R : plus_not greedy c ((y :: w) ++ s') k <> None)
      by (apply IH; auto; discriminate).
    destruct greedy; unfold orelse.
    + destruct (plus_not true c ((y :: w) ++ s') k);
        [discriminate | congruence].
    + destruct (k ((y :: w) ++ s')); [discriminate | exact R].
Qed.

Lemma match_re_sound r : forall s g (k : pystr -> groups_t -> option A) a,
  match_re r s g k = Some a ->
  exists s' g', matches r s g s' g' /\ k s' g' = Some a.
Proof.
  induction r as [text|greedy c|i r IH| r IH| |r1 IH1 r2 IH2];
    intros s g k a; simpl.
  - destruct (strip_prefix text s) as [s'|] eqn:E; [|discriminate].
    intros H; exists s', g; split; auto.
    split; [apply strip_prefix_sound; exact E | reflexivity].
  - intros H. apply plus_not_sound in H.
    destruct H as (w & s' & -> & Hw & Hc & Hk).
    exists s', g; split; auto. exists w; auto.
  - intros H. apply IH in H. destruct H as (s' & g1 & M & Hk).
    eexists s', _; split; [|exact Hk]. exists g1; auto.
  - unfold orelse. destruct (match_re r s g k) eqn:E.
    + intros H; rewrite <- H in *. apply IH in E.
      destruct E as (s' & g' & M & Hk). exists s', g'; auto.
    + intros H; exists s, g; auto.
  - destruct (at_end s) eqn:E; [|discriminate].
    intros H; exists s, g; repeat split; auto.
    destruct s as [|x [|y s]]; simpl in E; auto; [|discriminate].
    apply N.eqb_eq in E; subst; auto.
  - intros H. apply IH1 in H. destruct H as (s1 & g1 & M1 & H).
    apply IH2 in H. destruct H as (s' & g' & M2 & Hk).
    exists s', g'; split; auto. exists s1, g1; auto.
Qed.

Lemma match_re_complete r : forall s g s' g' (k : pystr -> groups_t -> option A),
  matches r s g s' g' -> k s' g' <> None -> match_re r s g k <> None.
Proof.
  induction r as [text|greedy c|i r IH| r IH| |r1 IH1 r2 IH2];
    intros s g s' g' k; simpl.
  - intros [-> ->] Hk. rewrite strip_prefix_app. exact Hk.
  - intros (w & Hw & Hc & -> & ->) Hk.
    apply plus_not_complete; auto.
  - intros (g1 & M & ->) Hk. eapply IH; [exact M | exact Hk].
  - intros [M | [-> ->]] Hk; unfold orelse.
    + assert (R := IH _ _ _ _ k M Hk).
      destruct (match_re r s g k); [discriminate | congruence].
    + destruct (match_re r s g k); [discriminate | exact Hk].
  - intros (-> & -> & E) Hk.
    destruct E as [-> | ->]; simpl; [exact Hk|].
    unfold newline; simpl. exact Hk.
  - intros (s1 & g1 & M1 & M2) Hk.
    eapply IH1; [exact M1|]. eapply IH2; [exact M2 | exact Hk].
Qed.
End MatcherFacts.

Lemma re_search_sound r s m :
  re_search r s = Some m ->
  exists pre s0 s', s = pre ++ s0 /\ matches r s0 no_groups s' m.
Proof.
  induction s as [|x s IH]; simpl; unfold orelse.
  - destruct (match_re r [] no_groups (fun _ g => Some g)) eqn:E;
      [|discriminate].
    intros H; rewrite H in E. apply match_re_sound in E.
    destruct E as (s' & g' & M & Hk). inversion Hk; subst.
    exists [], [], s'; auto.
  - destruct (match_re r (x :: s) no_groups (fun _ g => Some g)) eqn:E.
    + intros H; rewrite H in E. apply match_re_sound in E.
      destruct E as (s' & g' & M & Hk). inversion Hk; subst.
      exists [], (x :: s), s'; auto.
    + intros H. destruct (IH H) as (pre & s0 & s' & -> & M).
      exists (x :: pre), s0, s'; auto.
Qed.

Lemma re_search_complete r pre s0 s' m :
  matches r s0 no_groups s' m -> re_search r (pre ++ s0) <> None.
Proof.
  intros M.
  assert (Here : match_re r s0 no_groups (fun _ g => Some g) <> None)
    by (eapply match_re_complete; [exact M | discriminate]).
  induction pre as [|x pre IH]; simpl.
  - destruct s0; simpl; unfold orelse;
      destruct (match_re r _ no_groups (fun _ g => Some g));
      congruence.
  - unfold orelse.
    destruct (match_re r (x :: pre ++ s0) no_groups (fun _ g => Some g));
      [discriminate | exact IH].
Qed.

(** ** The two patterns *)

Lemma pattern_loose_shape s0 s' m :
  matches pattern_loose s0 no_groups s' m ->
  exists owner raw, repo_shape s0 owner raw s' m.
Proof.
  unfold pattern_loose; cbn [matches].
  intros (s1 & g1 & [-> ->] & s2 & g2 & (g3 & (w1 & N1 & C1 & -> & ->) & ->)
          & s3 & g4 & [-> ->] & g5 & (w2 & N2 & C2 & -> & ->) & ->).
  exists w1, w2. rewrite !firstn_matched.
  unfold repo_shape; repeat split; auto.
Qed.

Lemma pattern_exact_shape s0 s' m :
  matches pattern_exact s0 no_groups s' m ->
  exists owner raw tail, repo_shape s0 owner raw tail m.
Proof.
  unfold pattern_exact; cbn [matches].
  intros (s1 & g1 & [-> ->] & s2 & g2 & (g3 & (w1 & N1 & C1 & -> & ->) & ->)
          & s3 & g4 & [-> ->] & s4 & g5 & (g6 & (w2 & N2 & C2 & -> & ->) & ->)
          & s5 & g7 & O1 & s6 & g8 & O2 & -> & -> & _).
  exists w1, w2, s4. rewrite !firstn_matched in O1.
  assert (g8 = g7) by (destruct O2 as [[_ ?]|[_ ?]]; auto).
  assert (g7 = set_group 2 w2 (set_group 1 w1 no_groups))
    by (destruct O1 as [[_ ?]|[_ ?]]; auto).
  subst. unfold repo_shape; repeat split; auto.
Qed.

(** A text of the shape [github.com/<seg1>/<seg2>] is matched by the second
    pattern wherever it stands. *)
Lemma pattern_loose_matches seg1 seg2 rest :
  seg1 <> [] -> ~ In slash seg1 -> seg2 <> [] -> ~ In slash seg2 ->
  exists m,
    matches pattern_loose (py "github.com/" ++ seg1 ++ py "/" ++ seg2 ++ rest)
            no_groups rest m.
Proof.
  intros N1 C1 N2 C2. unfold pattern_loose; cbn [matches].
  eexists. eexists _, _. split; [split; reflexivity|].
  eexists _, _. split.
  { eexists. split; [|reflexivity]. exists seg1; repeat split; eauto. }
  eexists _, _. split; [split; reflexivity|].
  eexists. split; [|reflexivity]. exists seg2; repeat split; eauto.
Qed.

(** Both groups take part in every match of either pattern. *)
Lemma search_groups_present pattern url m :
  In pattern patterns -> re_search pattern url = Some m ->
  exists owner raw, m 1 = Some owner /\ m 2 = Some raw.
Proof.
  intros I H. apply re_search_sound in H.
  destruct H as (pre & s0 & s' & _ & M).
  destruct I as [<- | [<- | []]].
  - apply pattern_exact_shape in M.
    destruct M as (o & r & t & S); exists o, r; apply S.
  - apply pattern_loose_shape in M.
    destruct M as (o & r & S); exists o, r; apply S.
Qed.

(** [extract_repo_info] either finds nothing, or returns the two groups of a
    match, the second one after [rstrip]. *)
Lemma extract_repo_info_cases url :
  extract_repo_info url = (None, None)
  \/ exists pre owner raw tail,
       url = pre ++ py "github.com/" ++ owner ++ py "/" ++ raw ++ tail
       /\ owner <> [] /\ ~ In slash owner
       /\ raw <> [] /\ ~ In slash raw
       /\ extract_repo_info url = (Some owner, Some (rstrip (py ".git") raw)).
Proof.
  unfold extract_repo_info, patterns; cbn [first_match].
  destruct (re_search pattern_exact url) as [m|] eqn:E1.
  - right. apply re_search_sound in E1.
    destruct E1 as (pre & s0 & s' & -> & M).
    apply pattern_exact_shape in M.
    destruct M as (o & r & t & -> & ? & ? & ? & ? & -> & ->).
    exists pre, o, r, t; repeat split; auto.
  - destruct (re_search pattern_loose url) as [m|] eqn:E2; [|left; reflexivity].
    right. apply re_search_sound in E2.
    destruct E2 as (pre & s0 & s' & -> & M).
    apply pattern_loose_shape in M.
    destruct M as (o & r & -> & ? & ? & ? & ? & -> & ->).
    exists pre, o, r, s'; repeat split; auto.
Qed.

Lemma contains_skip (sub a t : pystr) :
  contains sub t = true -> contains sub (a ++ t) = true.
Proof.
  intros H. apply contains_sound in H. destruct H as (x & y & ->).
  rewrite app_assoc. apply contains_app.
Qed.

Lemma contains_refl (s : pystr) : contains s s = true.
Proof.
  rewrite <- (app_nil_r s) at 2. apply (contains_app s [] []).
Qed.

Lemma truthy_nonempty (s : pystr) : s <> [] -> truthy s = true.
Proof. destruct s; [congruence | reflexivity]. Qed.

(** ** The parser *)

(** C2: [repo.rstrip('.git')] removes every trailing character that is one
    of [.], [g], [i], [t], not the suffix [.git]: a repository name that
    ends in such characters loses them, and a name made of them alone
    becomes empty. *)
Theorem extract_rstrip_eats_name :
  extract_repo_info (py "github.com/owner/widget")
  = (Some (py "owner"), Some (py "widge"))
  /\ extract_repo_info (py "https://github.com/git/git")
     = (Some (py "git"), Some []).
Proof. split; reflexivity. Qed.

(** ** The prober *)

Lemma check_repo_parsed self net url owner repo :
  extract_repo_info url = (Some owner, Some repo) ->
  owner <> [] -> repo <> [] ->
  check_repo self net url
  = ([Request (api_url_of owner repo) (session_headers self) 10],
     try_except_request
       (classify url owner repo
          (net (Request (api_url_of owner repo) (session_headers self) 10)))
       (network_error url owner repo)).
Proof.
  intros E No Nr. unfold check_repo. rewrite E.
  rewrite (truthy_nonempty _ No), (truthy_nonempty _ Nr). reflexivity.
Qed.

Lemma check_repo_cases self net url :
  check_repo self net url = ([], Return (invalid_url_result url))
  \/ exists owner repo,
       extract_repo_info url = (Some owner, Some repo)
       /\ owner <> [] /\ repo <> []
       /\ check_repo self net url
          = ([Request (api_url_of owner repo) (session_headers self) 10],
             try_except_request
               (classify url owner repo
                  (net (Request (api_url_of owner repo)
                                (session_headers self) 10)))
               (network_error url owner repo)).
Proof.
  unfold check_repo.
  destruct (extract_repo_info url) as [[owner|] [repo|]]; auto.
  destruct owner as [|a owner], repo as [|b repo]; auto.
  right. exists (a :: owner), (b :: repo).
  repeat split; try discriminate.
Qed.

Lemma check_repo_raise_class self net url e :
  snd (check_repo self net url) = Raise e -> is_request_exception e = false.
Proof.
  destruct (check_repo_cases self net url)
    as [-> | (owner & repo & _ & _ & _ & ->)]; cbn [snd]; [discriminate|].
  unfold try_except_request.
  destruct (classify url owner repo _) as [r'|e']; [discriminate|].
  destruct (is_request_exception e') eqn:Q; [discriminate|].
  intros H; inversion H; subst; exact Q.
Qed.

Lemma occurs_in_skip (sub a t : pystr) :
  occurs_in sub t -> occurs_in sub (a ++ t).
Proof.
  intros (x & y & ->). exists (a ++ x), y. rewrite app_assoc. reflexivity.
Qed.

Lemma occurs_in_refl (s : pystr) : occurs_in s s.
Proof. exists [], []. rewrite app_nil_r. reflexivity. Qed.

Lemma occurs_in_iff (sub s : pystr) :
  occurs_in sub s <-> contains sub s = true.
Proof.
  split; [intros (a & b & ->); apply contains_app | apply contains_sound].
Qed.

Lemma dict_get_present {V} (d : list (pystr * V)) k v (x : V) :
  NoDup (map fst d) -> In (k, v) d -> dict_get d k x = v.
Proof.
  induction d as [|[k0 v0] d IH]; simpl; intros N I; [contradiction|].
  inversion N as [|? ? Hn Hd]; subst.
  destruct I as [E | I].
  - inversion E; subst. rewrite str_eqb_refl. reflexivity.
  - destruct (str_eqb k0 k) eqn:E; [|apply IH; assumption].
    apply str_eqb_eq in E; subst. exfalso. apply Hn.
    apply in_map_iff. exists (k, v); auto.
Qed.

Lemma dict_get_absent {V} (d : list (pystr * V)) k (x : V) :
  ~ In k (map fst d) -> dict_get d k x = x.
Proof.
  induction d as [|[k0 v0] d IH]; simpl; intros N; [reflexivity|].
  destruct (str_eqb k0 k) eqn:E.
  - apply str_eqb_eq in E; subst. exfalso; apply N; left; reflexivity.
  - apply IH. intros I; apply N; right; exact I.
Qed.

Lemma unpy_py (x : string) : unpy (py x) = x.
Proof.
  unfold unpy, py. rewrite map_map.
  rewrite (map_ext _ (fun a => a)) by (intros a; apply ascii_N_embedding).
  rewrite map_id. apply string_of_list_ascii_of_string.
Qed.

(** [str] of an integer is a decimal numeral that denotes it. *)
Lemma decimal_value_str_int (n : Z) : decimal_value (str_int n) = Some n.
Proof.
  unfold decimal_value, str_int. rewrite unpy_py.
  rewrite NilZero.isi.
  - simpl. rewrite DecimalZ.of_to. reflexivity.
  - destruct n; simpl; try discriminate.
    intros H; inversion H as [H1].
    apply (f_equal Pos.of_uint) in H1.
    rewrite DecimalPos.Unsigned.of_to in H1. discriminate.
  - destruct n; simpl; try discriminate.
    intros H; inversion H as [H1].
    apply (f_equal Pos.of_uint) in H1.
    rewrite DecimalPos.Unsigned.of_to in H1. discriminate.
Qed.

(** C1, as the code has it: for a URL that parses (owner and repo both
    returned and non-empty), the result follows the answer to the one GET.
    Status 200 with a JSON object as body gives [EXISTS], with [private],
    [archived] and [stars] holding the values of the keys [private],
    [archived] and [stargazers_count] of the body, or [False], [False] and
    [0] for a key that is absent.  Status 200 with a JSON body that is not
    an object gives no result: [AttributeError] leaves [check_repo].  When
    [response.json()] raises on a 200 response, a [RequestException] gives
    [ERROR] with its text and any other exception leaves [check_repo].
    Status 404 gives [NOT_FOUND]; 403 gives [FORBIDDEN], not [NOT_FOUND],
    with a message in which both "private" and "rate limited" occur; every
    other status code gives [ERROR] with the code, in decimal, in the
    message; none of these reads the body.  A [RequestException] raised by
    the request gives [ERROR] with its text in the message. *)
Theorem check_repo_classifies self net url owner repo :
  extract_repo_info url = (Some owner, Some repo) ->
  owner <> [] -> repo <> [] ->
  let req := Request (py "https://api.github.com/repos/" ++ owner
                         ++ py "/" ++ repo)
                     (session_headers self) 10 in
  let result := snd (check_repo self net url) in
  (forall resp body,
     net req = Return resp -> status_code resp = 200%Z ->
     json resp = Return (PyDict body) -> NoDup (map fst body) ->
     exists r,
       result = Return r
       /\ ProbeResult.status r = py "EXISTS"
       /\ (forall v, In (py "private", v) body ->
                     ProbeResult.private r = Some v)
       /\ (~ In (py "private") (map fst body) ->
           ProbeResult.private r = Some (PyBool false))
       /\ (forall v, In (py "archived", v) body ->
                     ProbeResult.archived r = Some v)
       /\ (~ In (py "archived") (map fst body) ->
           ProbeResult.archived r = Some (PyBool false))
       /\ (forall v, In (py "stargazers_count", v) body ->
                     ProbeResult.stars r = Some v)
       /\ (~ In (py "stargazers_count") (map fst body) ->
           ProbeResult.stars r = Some (PyInt 0)))
  /\ (forall resp v,
        net req = Return resp -> status_code resp = 200%Z ->
        json resp = Return v -> (forall body, v <> PyDict body) ->
        exists e, result = Raise e /\ exc_class_of e = AttributeError)
  /\ (forall resp e,
        net req = Return resp -> status_code resp = 200%Z ->
        json resp = Raise e ->
        (is_request_exception e = true ->
         exists r, result = Return r
                   /\ ProbeResult.status r = py "ERROR"
                   /\ occurs_in (exc_text e) (ProbeResult.message r))
        /\ (is_request_exception e = false -> result = Raise e))
  /\ (forall resp,
        net req = Return resp -> status_code resp = 404%Z ->
        exists r, result = Return r
                  /\ ProbeResult.status r = py "NOT_FOUND")
  /\ (forall resp,
        net req = Return resp -> status_code resp = 403%Z ->
        exists r, result = Return r
                  /\ ProbeResult.status r = py "FORBIDDEN"
                  /\ ProbeResult.status r <> py "NOT_FOUND"
                  /\ occurs_in (py "private") (ProbeResult.message r)
                  /\ occurs_in (py "rate limited") (ProbeResult.message r))
  /\ (forall resp,
        net req = Return resp ->
        status_code resp <> 200%Z -> status_code resp <> 404%Z ->
        status_code resp <> 403%Z ->
        exists r numeral,
          result = Return r
          /\ ProbeResult.status r = py "ERROR"
          /\ occurs_in numeral (ProbeResult.message r)
          /\ decimal_value numeral = Some (status_code resp))
  /\ (forall e,
        net req = Raise e -> is_request_exception e = true ->
        exists r, result = Return r
                  /\ ProbeResult.status r = py "ERROR"
                  /\ occurs_in (exc_text e) (ProbeResult.message r)).
Proof.
  intros E No Nr req result. subst result.
  rewrite (check_repo_parsed self net _ _ _ E No Nr).
  change (Request (api_url_of owner repo) (session_headers self) 10) with req.
  cbn [snd]. repeat apply conj.
  - intros [st js] body -> S J N. simpl in S, J. subst st js.
    eexists. split; [reflexivity|].
    cbn [ProbeResult.status ProbeResult.private ProbeResult.archived
         ProbeResult.stars].
    split; [reflexivity|].
    repeat apply conj; intros; f_equal;
      first [apply dict_get_present; assumption
            | apply dict_get_absent; assumption].
  - intros [st js] v -> S J Nd. simpl in S, J. subst st js.
    destruct v; try (eexists; split; reflexivity).
    exfalso. eapply Nd; reflexivity.
  - intros [st js] e -> S J. simpl in S, J. subst st js. split; intros Q.
    + unfold classify, bind, try_except_request. cbn [status_code json].
      simpl. rewrite Q.
      eexists; split; [reflexivity|].
      cbn [ProbeResult.status ProbeResult.message]. split; [reflexivity|].
      do 6 apply occurs_in_skip. apply occurs_in_refl.
    + unfold classify, bind, try_except_request. cbn [status_code json].
      simpl. rewrite Q. reflexivity.
  - intros [st js] -> S. simpl in S. subst st.
    eexists; split; reflexivity.
  - intros [st js] -> S. simpl in S. subst st.
    eexists; split; [reflexivity|].
    cbn [ProbeResult.status ProbeResult.message].
    split; [reflexivity|]. split; [discriminate|].
    split; do 5 apply occurs_in_skip.
    + exists (py " - Access denied ("), (py " or rate limited)"). reflexivity.
    + exists (py " - Access denied (private or "), (py ")"). reflexivity.
  - intros [st js] -> H2 H4 H3. cbn [status_code] in *.
    unfold classify, bind, try_except_request; cbn [status_code].
    destruct (Z.eqb_spec st 200); [contradiction|].
    destruct (Z.eqb_spec st 404); [contradiction|].
    destruct (Z.eqb_spec st 403); [contradiction|].
    exists (ProbeResult.mk url (py "ERROR")
              (py "? " ++ owner ++ py "/" ++ repo ++ py " - HTTP "
                  ++ str_int st) None None None), (str_int st).
    split; [reflexivity|].
    cbn [ProbeResult.status ProbeResult.message].
    split; [reflexivity|]. split.
    + do 5 apply occurs_in_skip. apply occurs_in_refl.
    + apply decimal_value_str_int.
  - intros e -> Q. simpl. rewrite Q.
    eexists; split; [reflexivity|].
    cbn [ProbeResult.status ProbeResult.message network_error exc_text].
    split; [reflexivity|].
    do 6 apply occurs_in_skip. apply occurs_in_refl.
Qed.

Lemma check_repo_classifies_witness :
  (exists r,
     snd (check_repo (init stock_requests None 10)
            (fun _ => Return (Response 200
                                (Return (PyDict [(py "private", PyBool true);
                                                 (py "stargazers_count",
                                                  PyInt 131000)]))))
            (py "https://github.com/golang/go")) = Return r
     /\ ProbeResult.status r = py "EXISTS"
     /\ ProbeResult.private r = Some (PyBool true)
     /\ ProbeResult.archived r = Some (PyBool false)
     /\ ProbeResult.stars r = Some (PyInt 131000))
  /\ (exists r numeral,
        snd (check_repo (init stock_requests None 10)
               (mocked (fun _ => HttpResponse 502 []))
               (py "https://github.com/golang/go")) = Return r
        /\ ProbeResult.status r = py "ERROR"
        /\ occurs_in numeral (ProbeResult.message r)
        /\ decimal_value numeral = Some 502%Z).
Proof.
  split.
  - destruct (proj1
      (@check_repo_classifies (init stock_requests None 10)
         (fun _ => Return (Response 200
                             (Return (PyDict [(py "private", PyBool true);
                                              (py "stargazers_count",
                                               PyInt 131000)]))))
         (py "https://github.com/golang/go") (py "golang") (py "go")
         eq_refl ltac:(discriminate) ltac:(discriminate))
      _ _ eq_refl eq_refl eq_refl
      ltac:(repeat constructor; simpl; intuition discriminate))
      as (r & R & S & P & _ & _ & A & St & _).
    exists r. repeat split; auto.
    + apply P. left; reflexivity.
    + apply A. simpl; intuition discriminate.
    + apply St. right; left; reflexivity.
  - refine (proj1 (proj2 (proj2 (proj2 (proj2 (proj2
      (@check_repo_classifies (init stock_requests None 10)
         (mocked (fun _ => HttpResponse 502 []))
         (py "https://github.com/golang/go") (py "golang") (py "go")
         eq_refl _ _)))))) _ eq_refl _ _ _); discriminate.
Defined.

(** C1, as the claim has it, fails on a response with status 200 whose body
    is not a JSON object: for the JSON array [[]] and for JSON [null] the
    result is not [EXISTS], there is none ([AttributeError] leaves
    [check_repo]); and for a body that is not JSON the result is [ERROR]. *)
Lemma status_200_is_not_always_exists :
  snd (check_repo (init stock_requests None 10) net_array_body url_ab)
  = Raise (Exn AttributeError (py "'list' object has no attribute 'get'"))
  /\ snd (check_repo (init stock_requests None 10) net_null_body url_ab)
     = Raise (Exn AttributeError
                (py "'NoneType' object has no attribute 'get'"))
  /\ snd (check_repo (init stock_requests None 10) net_not_json url_ab)
     = Return (ProbeResult.mk url_ab (py "ERROR")
                 (ballot_x ++ py " a/b - Network error: "
                     ++ py "Expecting value: line 1 column 1 (char 0)")
                 None None None).
Proof. repeat split; reflexivity. Qed.

Ltac one_of_five :=
  simpl; split; [repeat (first [left; reflexivity | right]) | reflexivity].

Example exists_with_defaults :
  snd (check_repo (init stock_requests None 10)
         (mocked (fun _ => HttpResponse 200 [(py "archived", PyBool true)]))
         (py "https://github.com/golang/go.git"))
  = Return (ProbeResult.mk (py "https://github.com/golang/go.git")
              (py "EXISTS") (check_mark ++ py " golang/go")
              (Some (PyBool false)) (Some (PyBool true)) (Some (PyInt 0))).
Proof. reflexivity. Qed.

Example unexpected_status :
  snd (check_repo (init stock_requests (Some (py "s3cret")) 10)
         (mocked (fun _ => HttpResponse 500 []))
         (py "github.com/golang/go"))
  = Return (ProbeResult.mk (py "github.com/golang/go") (py "ERROR")
              (py "? golang/go - HTTP 500") None None None).
Proof. reflexivity. Qed.

Example request_carries_token :
  fst (check_repo (init stock_requests (Some (py "s3cret")) 10)
         (mocked (fun _ => HttpResponse 500 []))
         (py "github.com/golang/go"))
  = [Request (py "https://api.github.com/repos/golang/go")
             [(py "User-Agent", py "python-requests/2.31.0");
              (py "Accept-Encoding", py "gzip, deflate");
              (py "Accept", py "*/*");
              (py "Connection", py "keep-alive");
              (py "Authorization", py "token s3cret")] 10].
Proof. reflexivity. Qed.

(** Every answer that is an HTTP outcome leads to a result with one of the
    five statuses. *)
Lemma check_repo_mocked self mock url :
  exists r, snd (check_repo self (mocked mock) url) = Return r
            /\ In (ProbeResult.status r) status_kinds
            /\ ProbeResult.url r = url.
Proof.
  unfold check_repo, status_kinds.
  destruct (extract_repo_info url) as [[owner|] [repo|]];
    try (eexists; split; [reflexivity | one_of_five]).
  destruct (negb (truthy owner) || negb (truthy repo));
    [eexists; split; [reflexivity | one_of_five]|].
  cbn [snd]. unfold mocked.
  destruct (mock _) as [st body | text].
  - unfold served, classify, bind, try_except_request; cbn [status_code json].
    destruct (st =? 200)%Z; [eexists; split; [reflexivity | one_of_five]|].
    destruct (st =? 404)%Z; [eexists; split; [reflexivity | one_of_five]|].
    destruct (st =? 403)%Z; eexists; (split; [reflexivity | one_of_five]).
  - eexists; split; [reflexivity | one_of_five].
Qed.

(** C3, as the code has it: [check_repo] produces one result, with one of the
    five statuses, or none.  When the parser returns an absent (or empty)
    owner or repo, whatever the remote side would do, the result is
    [INVALID_URL] and no request is sent.  Otherwise one request is sent;
    when what comes back is caught by the [except] clause or needs no
    catching (see [catchable]), the result has one of the four other
    statuses; when it is not (an exception other than a [RequestException]
    from [session.get] or [response.json()], or a 200 response whose JSON
    body is not an object), an exception that is not a [RequestException]
    leaves [check_repo] and there is no result. *)
Theorem check_repo_one_result_five_kinds self net url :
  (forall owner repo,
     extract_repo_info url = (owner, repo) ->
     owner = None \/ repo = None \/ owner = Some [] \/ repo = Some [] ->
     check_repo self net url
     = ([], Return (ProbeResult.mk url (py "INVALID_URL")
                      (py "Could not parse GitHub URL") None None None)))
  /\ (forall owner repo,
        extract_repo_info url = (Some owner, Some repo) ->
        owner <> [] -> repo <> [] ->
        let got := net (Request (py "https://api.github.com/repos/" ++ owner
                                    ++ py "/" ++ repo)
                                (session_headers self) 10) in
        (catchable got = true ->
         exists r, snd (check_repo self net url) = Return r
                   /\ In (ProbeResult.status r)
                         [py "EXISTS"; py "NOT_FOUND"; py "FORBIDDEN";
                          py "ERROR"])
        /\ (catchable got = false ->
            exists e, snd (check_repo self net url) = Raise e
                      /\ is_request_exception e = false))
  /\ (forall r,
        snd (check_repo self net url) = Return r ->
        In (ProbeResult.status r)
           [py "INVALID_URL"; py "EXISTS"; py "NOT_FOUND"; py "FORBIDDEN";
            py "ERROR"]).
Proof.
  split; [|split].
  - intros owner repo E H. unfold check_repo. rewrite E.
    destruct H as [-> | [-> | [-> | ->]]]; try reflexivity.
    + destruct owner; reflexivity.
    + destruct repo; reflexivity.
    + destruct owner as [o|]; [|reflexivity].
      destruct (truthy o); reflexivity.
  - intros owner repo E No Nr got.
    rewrite (check_repo_parsed self net _ _ _ E No Nr). cbn [snd].
    change (net (Request (api_url_of owner repo) (session_headers self) 10))
      with got.
    unfold classify, bind, try_except_request, catchable.
    destruct got as [[st js]|e]; cbn [status_code json].
    + destruct (st =? 200)%Z.
      * destruct js as [v|e].
        -- destruct v; split; intros C; try discriminate C;
             eexists; split; try reflexivity; simpl; auto.
        -- split; intros C; simpl; rewrite C;
             eexists; split; try reflexivity; simpl; auto 6.
      * split; [intros _ | discriminate].
        destruct (st =? 404)%Z; [eexists; split; [reflexivity|simpl; auto]|].
        destruct (st =? 403)%Z; eexists; (split; [reflexivity|simpl; auto 6]).
    + split; intros C; rewrite C; eexists; split; try reflexivity;
        simpl; auto 6.
  - intros r. unfold check_repo.
    destruct (extract_repo_info url) as [[owner|] [repo|]];
      try solve [intros H; inversion H; subst; simpl; auto].
    destruct (negb (truthy owner) || negb (truthy repo));
      [intros H; inversion H; subst; simpl; auto|].
    cbn [snd]. unfold try_except_request.
    destruct (classify url owner repo _) as [r'|e] eqn:C.
    + intros H; inversion H; subst r'. revert C. unfold classify, bind.
      destruct (net _) as [[st js]|e]; [|discriminate].
      cbn [status_code json]. destruct (st =? 200)%Z.
      * destruct js as [v|e]; [destruct v|]; simpl; try discriminate.
        intros H'; inversion H'; subst; simpl; auto.
      * destruct (st =? 404)%Z;
          [intros H'; inversion H'; subst; simpl; auto|].
        destruct (st =? 403)%Z; intros H'; inversion H'; subst; simpl; auto 6.
    + destruct (is_request_exception e); [|discriminate].
      intros H; inversion H; subst; simpl; auto 6.
Qed.

Lemma check_repo_one_result_five_kinds_witness :
  check_repo (init stock_requests None 10)
             (mocked (fun _ => HttpResponse 200 [])) (py "not-a-url")
  = ([], Return (ProbeResult.mk (py "not-a-url") (py "INVALID_URL")
                   (py "Could not parse GitHub URL") None None None))
  /\ (exists e,
        snd (check_repo (init stock_requests None 10) net_array_body url_ab)
        = Raise e /\ is_request_exception e = false)
  /\ (exists r,
        snd (check_repo (init stock_requests None 10) (mocked mock_all_404)
                        url_ab) = Return r
        /\ In (ProbeResult.status r)
              [py "EXISTS"; py "NOT_FOUND"; py "FORBIDDEN"; py "ERROR"]).
Proof.
  split; [|split].
  - apply (proj1 (check_repo_one_result_five_kinds
                    (init stock_requests None 10)
                    (mocked (fun _ => HttpResponse 200 [])) (py "not-a-url"))
             None None).
    + reflexivity.
    + left; reflexivity.
  - refine (proj2 (proj1 (proj2 (check_repo_one_result_five_kinds
                    (init stock_requests None 10) net_array_body url_ab))
                    (py "a") (py "b") eq_refl _ _) eq_refl);
      discriminate.
  - refine (proj1 (proj1 (proj2 (check_repo_one_result_five_kinds
                    (init stock_requests None 10) (mocked mock_all_404)
                    url_ab))
                    (py "a") (py "b") eq_refl _ _) eq_refl);
      discriminate.
Defined.

(** C3, as the claim has it, fails on a response with status 200 whose JSON
    body is [null]: [check_repo] produces no result for that URL. *)
Lemma check_repo_without_result :
  ~ exists r,
      snd (check_repo (init stock_requests None 10) net_null_body url_cd)
      = Return r.
Proof. intros [r H]. discriminate H. Qed.

(** ** The batch runner *)

Lemma as_completed_map {F G} (f : F -> G) (l : list F) (c : list nat) :
  as_completed (map f l) c = map f (as_completed l c).
Proof.
  unfold as_completed. induction c as [|i c IH]; simpl; [reflexivity|].
  rewrite map_app, IH, nth_error_map.
  destruct (nth_error l i); reflexivity.
Qed.

Lemma as_completed_in_order {F} (l : list F) :
  as_completed l (seq 0 (length l)) = l.
Proof.
  unfold as_completed.
  enough (G : forall done,
             flat_map (fun i => match nth_error (done ++ l) i with
                                | Some f => [f]
                                | None => []
                                end) (seq (length done) (length l)) = l)
    by apply (G []).
  induction l as [|x l IH]; intros done; simpl; [reflexivity|].
  rewrite nth_error_app2, Nat.sub_diag by lia. simpl. f_equal.
  specialize (IH (done ++ [x])).
  rewrite <- app_assoc, length_app, Nat.add_1_r in IH. exact IH.
Qed.

Lemma as_completed_perm {F} (l : list F) (c : list nat) :
  Permutation c (seq 0 (length l)) -> Permutation (as_completed l c) l.
Proof.
  intros P. rewrite <- (as_completed_in_order l) at 2.
  unfold as_completed. apply Permutation_flat_map. exact P.
Qed.

Lemma Permutation_filter {X} (f : X -> bool) (l l' : list X) :
  Permutation l l' -> Permutation (filter f l) (filter f l').
Proof.
  induction 1 as [|x l l' P IH|x y l|l l' l'' P1 IH1 P2 IH2]; simpl.
  - constructor.
  - destruct (f x); [constructor|]; exact IH.
  - destruct (f x), (f y); try apply Permutation_refl. apply perm_swap.
  - eapply perm_trans; eauto.
Qed.

Section BatchFacts.
Variable S : Type.

Lemma reap_all_return total (pc : option (callback S)) rs :
  forall i acc (st : S) n,
  reap total pc i (map Return rs) acc st n
  = (Return (acc ++ rs), notified total pc (i + 1) rs st, n + length rs).
Proof.
  unfold notified.
  induction rs as [|r rs IH]; intros i acc st n; simpl.
  - rewrite app_nil_r, Nat.add_0_r. reflexivity.
  - rewrite IH, <- app_assoc. simpl.
    replace (i + 1 + 1) with (Datatypes.S (i + 1)) by lia.
    replace (n + 1 + length rs) with (n + Datatypes.S (length rs)) by lia.
    destruct pc; reflexivity.
Qed.

Lemma reap_raises total (pc : option (callback S)) e fs :
  forall i acc (st : S) n,
  In (Raise e) fs ->
  exists e', fst (fst (reap total pc i fs acc st n)) = Raise e'.
Proof.
  induction fs as [|f fs IH]; intros i acc st n; simpl; [tauto|].
  intros [-> | I]; [exists e; reflexivity|].
  destruct f as [r|e0]; [apply IH; exact I | exists e0; reflexivity].
Qed.

Lemma batch_all_return self net c urls (pc : option (callback S))
      (st : S) rs :
  (0 < max_workers self)%Z ->
  map (fun u => snd (check_repo self net u)) urls = map Return rs ->
  let run := check_repos_batch self net c urls pc st in
  returned run = Return (as_completed rs c)
  /\ callback_state run
     = notified (length urls) pc 1 (as_completed rs c) st
  /\ sleeps run = length (as_completed rs c).
Proof.
  intros W E. unfold check_repos_batch.
  destruct (Z.leb_spec (max_workers self) 0) as [L|_]; [lia|].
  rewrite map_map, E, as_completed_map, reap_all_return.
  simpl. auto.
Qed.

Lemma batch_raises self net c urls (pc : option (callback S))
      (st : S) url e :
  (0 < max_workers self)%Z ->
  Permutation c (seq 0 (length urls)) ->
  In url urls -> snd (check_repo self net url) = Raise e ->
  exists e', returned (check_repos_batch self net c urls pc st) = Raise e'.
Proof.
  intros W P I E. unfold check_repos_batch.
  destruct (Z.leb_spec (max_workers self) 0) as [L|_]; [lia|].
  rewrite map_map.
  set (fs := map (fun u => snd (check_repo self net u)) urls).
  assert (Pf : Permutation (as_completed fs c) fs).
  { apply as_completed_perm. unfold fs. rewrite length_map. exact P. }
  assert (If : In (Raise e) (as_completed fs c)).
  { apply (Permutation_in _ (Permutation_sym Pf)).
    unfold fs. rewrite <- E. apply in_map_iff. exists url; auto. }
  destruct (reap_raises (length urls) pc e _ 0 [] st 0 If) as [e' R].
  exists e'. destruct (reap _ _ _ _ _ _ _) as [[ret st'] n]. exact R.
Qed.
End BatchFacts.

Lemma returned_list {X} (f : X -> outcome ProbeResult.t) (xs : list X) :
  (forall x, In x xs -> exists r, f x = Return r) ->
  exists rs, map f xs = map Return rs.
Proof.
  induction xs as [|x xs IH]; intros H.
  - exists []; reflexivity.
  - destruct (H x (or_introl eq_refl)) as [r E].
    destruct IH as [rs Ers]; [intros y I; apply H; right; exact I|].
    exists (r :: rs); simpl; congruence.
Qed.

Lemma mocked_results self mock urls :
  exists rs,
    map (fun u => snd (check_repo self (mocked mock) u)) urls = map Return rs
    /\ map ProbeResult.url rs = urls
    /\ Forall (fun r => In (ProbeResult.status r) status_kinds) rs.
Proof.
  induction urls as [|u urls (rs & E & U & K)].
  - exists []; auto.
  - destruct (check_repo_mocked self mock u) as (r & Er & Kr & Ur).
    exists (r :: rs); simpl; repeat split; try congruence. constructor; auto.
Qed.

Lemma check_repo_catchable self net url :
  (forall req, catchable (net req) = true) ->
  exists r, snd (check_repo self net url) = Return r.
Proof.
  intros C. unfold check_repo.
  destruct (extract_repo_info url) as [[owner|] [repo|]];
    try (eexists; reflexivity).
  destruct (negb (truthy owner) || negb (truthy repo));
    [eexists; reflexivity|].
  cbn [snd].
  specialize (C (Request (api_url_of owner repo) (session_headers self) 10)).
  destruct (net _) as [[st js]|e]; simpl in C.
  - unfold classify, bind, try_except_request; cbn [status_code json].
    destruct (st =? 200)%Z.
    + destruct js as [v|e]; [destruct v; try discriminate|].
      * eexists; reflexivity.
      * simpl. rewrite C. eexists; reflexivity.
    + destruct (st =? 404)%Z; [eexists; reflexivity|].
      destruct (st =? 403)%Z; eexists; reflexivity.
  - simpl. rewrite C. eexists; reflexivity.
Qed.

Lemma recorded_calls total rs : forall from calls,
  notified total (Some recording) from rs calls
  = calls ++ map (fun jr => (fst jr, total, snd jr))
                 (combine (seq from (length rs)) rs).
Proof.
  unfold notified, recording.
  induction rs as [|r rs IH]; intros from calls; simpl.
  - rewrite app_nil_r; reflexivity.
  - rewrite IH, <- app_assoc. reflexivity.
Qed.

Lemma counters_of_calls (total : nat) (rs : list ProbeResult.t) : forall from,
  map (fun c : nat * nat * ProbeResult.t => fst (fst c))
      (map (fun jr => (fst jr, total, snd jr))
           (combine (seq from (length rs)) rs))
  = seq from (length rs).
Proof.
  induction rs as [|r rs IH]; intros from; simpl; [reflexivity|].
  rewrite IH; reflexivity.
Qed.

Section CallbackFacts.
Variable S : Type.

Lemma reap_stops total (pc : option (callback S)) done e rest :
  forall i acc (st : S) n,
    reap total pc i (map Return done ++ Raise e :: rest) acc st n
    = (Raise e, notified total pc (i + 1) done st, n + length done).
Proof.
  unfold notified.
  induction done as [|r done IH]; intros i acc st n; simpl.
  - rewrite Nat.add_0_r. reflexivity.
  - rewrite IH.
    replace (i + 1 + 1) with (Datatypes.S (i + 1)) by lia.
    replace (n + 1 + length done) with (n + Datatypes.S (length done)) by lia.
    destruct pc; reflexivity.
Qed.
End CallbackFacts.

Lemma first_raise (fs : list (outcome ProbeResult.t)) e :
  In (Raise e) fs ->
  exists done e' rest, fs = map Return done ++ Raise e' :: rest.
Proof.
  induction fs as [|f fs IH]; intros I; [contradiction|].
  destruct f as [r|e0].
  - destruct I as [I|I]; [discriminate|].
    destruct (IH I) as (done & e' & rest & ->).
    exists (r :: done), e', rest; reflexivity.
  - exists [], e0, fs; reflexivity.
Qed.

Lemma as_completed_nth {F} (fs : list F) (c : list nat) :
  Forall (fun j => j < length fs) c ->
  forall i, nth_error (as_completed fs c) i
            = match nth_error c i with
              | Some j => nth_error fs j
              | None => None
              end.
Proof.
  unfold as_completed. induction c as [|j c IH]; intros V i.
  - destruct i; reflexivity.
  - inversion V as [|? ? Hj Hc]; subst. simpl.
    destruct (nth_error fs j) as [f|] eqn:E.
    + destruct i; simpl; [symmetry; exact E | apply IH, Hc].
    + apply nth_error_None in E. lia.
Qed.

Lemma completion_indices (c : list nat) (n : nat) :
  Permutation c (seq 0 n) -> Forall (fun j => j < n) c.
Proof.
  intros P. apply Forall_forall. intros j I.
  apply (Permutation_in _ P), in_seq in I. lia.
Qed.

Lemma recorded_nth (total : nat) (rs : list ProbeResult.t) :
  forall from i,
    nth_error (map (fun jr : nat * ProbeResult.t => (fst jr, total, snd jr))
                   (combine (seq from (length rs)) rs)) i
    = option_map (fun r => (from + i, total, r)) (nth_error rs i).
Proof.
  induction rs as [|r rs IH]; intros from i; simpl.
  - destruct i; reflexivity.
  - destruct i; simpl; [rewrite Nat.add_0_r; reflexivity|].
    rewrite IH. replace (Datatypes.S from + i) with (from + Datatypes.S i)
      by lia. reflexivity.
Qed.

(** C4, as the code has it.  With a pool of at least one worker: when every
    probe of a batch of K URLs returns a result, the batch returns K
    results and calls the progress callback K times, and for every place
    [i] of the completion order, holding the probe submitted as number [j],
    the result at place [i] is the result of URL number [j] and call
    number [i] (counting from 0) receives [completed = i + 1], [total = K]
    and that result.  When a probe lets an exception out, the batch
    returns no results: it raises, after fewer than K calls of the
    callback. *)
Theorem batch_K_results_K_callbacks self net urls completion :
  (0 < max_workers self)%Z ->
  Permutation completion (seq 0 (length urls)) ->
  let K := length urls in
  let probe := fun u => snd (check_repo self net u) in
  let run := check_repos_batch self net completion urls
                               (Some recording) [] in
  ((forall url, In url urls -> exists r, probe url = Return r) ->
   exists results,
     returned run = Return results
     /\ length results = K
     /\ length (callback_state run) = K
     /\ forall i j,
          nth_error completion i = Some j ->
          exists url r,
            nth_error urls j = Some url
            /\ probe url = Return r
            /\ nth_error results i = Some r
            /\ nth_error (callback_state run) i = Some (i + 1, K, r))
  /\ (forall url e,
        In url urls -> probe url = Raise e ->
        exists e', returned run = Raise e'
                   /\ length (callback_state run) < K).
Proof.
  intros W P K probe run. split.
  - intros H.
    destruct (returned_list probe urls H) as [rs E].
    destruct (batch_all_return _ self net completion urls
                (Some recording) [] rs W E) as (R & C & _).
    fold run in R, C. rewrite recorded_calls in C. simpl in C. fold K in C.
    assert (Lrs : length rs = K).
    { unfold K. rewrite <- (length_map Return rs), <- E, length_map.
      reflexivity. }
    assert (L : length (as_completed rs completion) = K).
    { rewrite <- Lrs. apply Permutation_length, as_completed_perm.
      rewrite Lrs. exact P. }
    assert (V : Forall (fun j => j < length rs) completion)
      by (rewrite Lrs; apply completion_indices, P).
    exists (as_completed rs completion).
    split; [exact R|]. split; [exact L|]. split.
    { rewrite C, length_map, length_combine, length_seq, L.
      apply Nat.min_id. }
    intros i j Hi.
    pose proof (as_completed_nth rs completion V i) as N.
    rewrite Hi in N.
    assert (Hj : j < length rs).
    { rewrite Forall_forall in V. apply V. eapply nth_error_In; exact Hi. }
    destruct (nth_error rs j) as [r|] eqn:Er;
      [|apply nth_error_None in Er; lia].
    destruct (nth_error urls j) as [url|] eqn:Eu;
      [|apply nth_error_None in Eu; fold K in Eu; lia].
    exists url, r. split; [reflexivity|]. split; [|split; [exact N|]].
    + assert (Q : nth_error (map probe urls) j = nth_error (map Return rs) j)
        by (rewrite E; reflexivity).
      rewrite !nth_error_map, Eu, Er in Q. simpl in Q.
      inversion Q; reflexivity.
    + rewrite C, recorded_nth, N. simpl.
      replace (i + 1) with (Datatypes.S i) by lia. reflexivity.
  - intros url e I E.
    set (fs := map probe urls).
    assert (Pf : Permutation (as_completed fs completion) fs).
    { apply as_completed_perm. unfold fs. rewrite length_map. exact P. }
    assert (If : In (Raise e) (as_completed fs completion)).
    { apply (Permutation_in _ (Permutation_sym Pf)).
      unfold fs. rewrite <- E. apply in_map_iff. exists url; auto. }
    destruct (first_raise _ e If) as (done & e' & others & D).
    assert (Ld : length done < K).
    { assert (Lf : length (as_completed fs completion) = K).
      { rewrite (Permutation_length Pf). unfold fs. apply length_map. }
      rewrite D, length_app, length_map in Lf. simpl in Lf. lia. }
    exists e'. unfold run, check_repos_batch.
    destruct (Z.leb_spec (max_workers self) 0) as [Lw|_]; [lia|].
    rewrite map_map. fold probe. fold fs. rewrite D, reap_stops.
    cbn [returned callback_state]. rewrite recorded_calls.
    split; [reflexivity|].
    simpl. rewrite length_map, length_combine, length_seq, Nat.min_id.
    exact Ld.
Qed.

Lemma batch_K_results_K_callbacks_witness :
  Permutation [1; 0] (seq 0 2)
  /\ exists results,
       returned (check_repos_batch (init stock_requests None 10)
                   (mocked mock_timeout_ab) [1; 0] [url_ab; url_cd]
                   (Some recording) [])
       = Return results
       /\ length results = 2
       /\ length (callback_state
                    (check_repos_batch (init stock_requests None 10)
                       (mocked mock_timeout_ab) [1; 0] [url_ab; url_cd]
                       (Some recording) [])) = 2
       /\ exists r,
            nth_error results 0 = Some r
            /\ ProbeResult.url r = url_cd
            /\ nth_error (callback_state
                            (check_repos_batch (init stock_requests None 10)
                               (mocked mock_timeout_ab) [1; 0]
                               [url_ab; url_cd] (Some recording) [])) 0
               = Some (1, 2, r).
Proof.
  split; [apply perm_swap|].
  destruct (proj1 (batch_K_results_K_callbacks (init stock_requests None 10)
                     (mocked mock_timeout_ab) [url_ab; url_cd] [1; 0]
                     eq_refl (perm_swap 0 1 [])))
    as (results & R & L & Lc & N).
  - intros url [<- | [<- | []]]; eexists; reflexivity.
  - exists results. repeat split; auto.
    destruct (N 0 1 eq_refl) as (url & r & Eu & Ep & Er & Ec).
    exists r. inversion Eu; subst url. repeat split; auto.
    inversion Ep; reflexivity.
Defined.

(** C4, as the claim has it, fails on a batch of two URLs of which one gets
    a 200 response with a JSON array as body: the batch returns no result
    at all, after no call of the callback when that probe completes first
    and after one call when it completes second. *)
Lemma batch_of_two_without_results :
  returned (check_repos_batch (init stock_requests None 10) net_array_body
              [0; 1] [url_ab; url_cd] (Some recording) [])
  = Raise (Exn AttributeError (py "'list' object has no attribute 'get'"))
  /\ length (callback_state
               (check_repos_batch (init stock_requests None 10)
                  net_array_body [0; 1] [url_ab; url_cd]
                  (Some recording) [])) = 0
  /\ returned (check_repos_batch (init stock_requests None 10) net_array_body
                 [1; 0] [url_ab; url_cd] (Some recording) [])
     = Raise (Exn AttributeError (py "'list' object has no attribute 'get'"))
  /\ length (callback_state
               (check_repos_batch (init stock_requests None 10)
                  net_array_body [1; 0] [url_ab; url_cd]
                  (Some recording) [])) = 1.
Proof. repeat split; reflexivity. Qed.

Lemma catchable_mocked mock req : catchable (mocked mock req) = true.
Proof.
  unfold mocked. destruct (mock req) as [st body|text]; simpl; [|reflexivity].
  destruct (st =? 200)%Z; reflexivity.
Qed.

(** C5, as the code has it.  A [RequestException] raised for a probe's
    request is captured in that probe's own result, with status [ERROR] and
    the text of the exception; when nothing else goes wrong in any probe,
    the batch returns the results of all its probes.  Nothing else is
    captured: an exception of another class raised by [session.get] or by
    [response.json()], and the [AttributeError] of a 200 response whose
    JSON body is not an object, leave [check_repo]; and an exception that
    leaves a probe ends the batch, which raises an exception that is not a
    [RequestException] instead of returning results. *)
Theorem request_failures_are_captured self net urls completion :
  (0 < max_workers self)%Z ->
  Permutation completion (seq 0 (length urls)) ->
  let probe := fun u => snd (check_repo self net u) in
  let run := check_repos_batch self net completion urls
                               (Some progress_callback) [] in
  let request := fun owner repo =>
    Request (py "https://api.github.com/repos/" ++ owner ++ py "/" ++ repo)
            (session_headers self) 10 in
  (forall url owner repo e,
     extract_repo_info url = (Some owner, Some repo) ->
     owner <> [] -> repo <> [] ->
     net (request owner repo) = Raise e ->
     is_request_exception e = true ->
     exists r, probe url = Return r
               /\ ProbeResult.status r = py "ERROR"
               /\ ProbeResult.url r = url
               /\ occurs_in (exc_text e) (ProbeResult.message r))
  /\ ((forall req, catchable (net req) = true) ->
      exists results,
        returned run = Return results
        /\ length results = length urls
        /\ Permutation (map Return results) (map probe urls))
  /\ (forall url owner repo,
        extract_repo_info url = (Some owner, Some repo) ->
        owner <> [] -> repo <> [] ->
        (forall e,
           net (request owner repo) = Raise e ->
           is_request_exception e = false -> probe url = Raise e)
        /\ (forall resp e,
              net (request owner repo) = Return resp ->
              status_code resp = 200%Z -> json resp = Raise e ->
              is_request_exception e = false -> probe url = Raise e)
        /\ (forall resp v,
              net (request owner repo) = Return resp ->
              status_code resp = 200%Z -> json resp = Return v ->
              (forall body, v <> PyDict body) ->
              exists e, probe url = Raise e
                        /\ exc_class_of e = AttributeError))
  /\ (forall url e,
        In url urls -> probe url = Raise e ->
        exists e', returned run = Raise e'
                   /\ is_request_exception e' = false).
Proof.
  intros W P probe run request. split; [|split; [|split]].
  - intros url owner repo e E No Nr G Q. unfold probe.
    rewrite (check_repo_parsed self net _ _ _ E No Nr). cbn [snd].
    change (Request (api_url_of owner repo) (session_headers self) 10)
      with (request owner repo).
    rewrite G. simpl. rewrite Q.
    eexists; split; [reflexivity|].
    cbn [ProbeResult.status ProbeResult.message ProbeResult.url].
    repeat split. do 6 apply occurs_in_skip. apply occurs_in_refl.
  - intros C.
    destruct (returned_list probe urls) as [rs E].
    { intros u _. apply check_repo_catchable. exact C. }
    destruct (batch_all_return _ self net completion urls
                (Some progress_callback) [] rs W E) as (R & _ & _).
    assert (Lrs : length rs = length urls).
    { rewrite <- (length_map Return rs), <- E, length_map. reflexivity. }
    assert (Pr : Permutation (as_completed rs completion) rs).
    { apply as_completed_perm. rewrite Lrs. exact P. }
    exists (as_completed rs completion). split; [exact R|]. split.
    + rewrite <- Lrs. apply Permutation_length, Pr.
    + rewrite E. apply Permutation_map, Pr.
  - intros url owner repo E No Nr. unfold probe.
    rewrite (check_repo_parsed self net _ _ _ E No Nr). cbn [snd].
    change (Request (api_url_of owner repo) (session_headers self) 10)
      with (request owner repo).
    split; [|split].
    + intros e -> Q. simpl. rewrite Q. reflexivity.
    + intros [st js] e -> S J Q. simpl in S, J. subst st js.
      simpl. rewrite Q. reflexivity.
    + intros [st js] v -> S J Nd. simpl in S, J. subst st js.
      destruct v; try (eexists; split; reflexivity).
      exfalso. eapply Nd; reflexivity.
  - intros url e I E.
    set (fs := map probe urls).
    assert (Pf : Permutation (as_completed fs completion) fs).
    { apply as_completed_perm. unfold fs. rewrite length_map. exact P. }
    assert (If : In (Raise e) (as_completed fs completion)).
    { apply (Permutation_in _ (Permutation_sym Pf)).
      unfold fs. rewrite <- E. apply in_map_iff. exists url; auto. }
    destruct (first_raise _ e If) as (done & e' & others & D).
    exists e'. split.
    + unfold run, check_repos_batch.
      destruct (Z.leb_spec (max_workers self) 0) as [Lw|_]; [lia|].
      rewrite map_map. fold probe. fold fs. rewrite D, reap_stops.
      reflexivity.
    + assert (I' : In (Raise e') fs).
      { apply (Permutation_in _ Pf). rewrite D.
        apply in_or_app. right; left; reflexivity. }
      unfold fs in I'. apply in_map_iff in I'.
      destruct I' as (u & Eu & _).
      eapply check_repo_raise_class; exact Eu.
Qed.

Lemma request_failures_are_captured_witness :
  Permutation [1; 0] (seq 0 2)
  /\ (exists results,
        returned (check_repos_batch (init stock_requests None 10)
                    (mocked mock_timeout_ab) [1; 0] [url_ab; url_cd]
                    (Some progress_callback) [])
        = Return results
        /\ length results = 2)
  /\ (exists e,
        snd (check_repo (init stock_requests None 10) net_null_body url_ab)
        = Raise e /\ exc_class_of e = AttributeError).
Proof.
  split; [apply perm_swap|]. split.
  - destruct (proj1 (proj2
                (request_failures_are_captured (init stock_requests None 10)
                   (mocked mock_timeout_ab) [url_ab; url_cd] [1; 0]
                   eq_refl (perm_swap 0 1 [])))
                (catchable_mocked mock_timeout_ab))
      as (results & R & L & _).
    exists results. auto.
  - refine (proj2 (proj2 (proj1 (proj2 (proj2
              (request_failures_are_captured (init stock_requests None 10)
                 net_null_body [url_ab; url_cd] [1; 0]
                 eq_refl (perm_swap 0 1 []))))
              url_ab (py "a") (py "b") eq_refl _ _))
              _ PyNone eq_refl eq_refl eq_refl _); discriminate.
Defined.

(** C5, as the claim has it, fails on a response with status 200 whose JSON
    body is an array: [repo_data.get] raises [AttributeError], which the
    [except] clause does not catch.  The probe produces no result, and the
    batch raises whichever probe completes first, so the result of the
    other probe is lost too. *)
Lemma uncaught_probe_failure_ends_batch :
  snd (check_repo (init stock_requests None 10) net_array_body url_ab)
  = Raise (Exn AttributeError (py "'list' object has no attribute 'get'"))
  /\ returned (check_repos_batch (init stock_requests None 10) net_array_body [0; 1]
                 [url_ab; url_cd] (Some progress_callback) [])
     = Raise (Exn AttributeError (py "'list' object has no attribute 'get'"))
  /\ returned (check_repos_batch (init stock_requests None 10) net_array_body [1; 0]
                 [url_ab; url_cd] (Some progress_callback) [])
     = Raise (Exn AttributeError (py "'list' object has no attribute 'get'")).
Proof. repeat split; reflexivity. Qed.

(** ** Dicts *)

Lemma dict_get_set {V} (d : list (pystr * V)) k v k' (x : V) :
  dict_get (dict_set d k v) k' x
  = if str_eqb k k' then v else dict_get d k' x.
Proof.
  induction d as [|[k0 v0] d IH]; simpl; [reflexivity|].
  destruct (str_eqb k0 k) eqn:E0; simpl.
  - apply str_eqb_eq in E0; subst k0. destruct (str_eqb k k'); reflexivity.
  - rewrite IH. destruct (str_eqb k0 k') eqn:E1; [|reflexivity].
    apply str_eqb_eq in E1; subst k'.
    destruct (str_eqb k k0) eqn:E2; [|reflexivity].
    apply str_eqb_eq in E2; subst k0. rewrite str_eqb_refl in E0.
    discriminate.
Qed.

Lemma dict_set_keys {V} (d : list (pystr * V)) k v k' :
  In k' (map fst (dict_set d k v)) <-> k' = k \/ In k' (map fst d).
Proof.
  induction d as [|[k0 v0] d IH]; simpl.
  - intuition.
  - destruct (str_eqb k0 k) eqn:E0; simpl.
    + apply str_eqb_eq in E0; subst k0. intuition.
    + rewrite IH. intuition.
Qed.

Lemma dict_set_NoDup {V} (d : list (pystr * V)) k v :
  NoDup (map fst d) -> NoDup (map fst (dict_set d k v)).
Proof.
  induction d as [|[k0 v0] d IH]; simpl; intros N.
  - constructor; [simpl; tauto | constructor].
  - inversion N as [|? ? Hn Hd]; subst.
    destruct (str_eqb k0 k) eqn:E0; simpl.
    + constructor; assumption.
    + constructor; [|apply IH; exact Hd].
      rewrite dict_set_keys. intros [F|F]; [|contradiction].
      subst k0. rewrite str_eqb_refl in E0. discriminate.
Qed.

Lemma dict_set_sum (d : list (pystr * nat)) k v :
  list_sum (map snd (dict_set d k v)) + dict_get d k 0
  = list_sum (map snd d) + v.
Proof.
  induction d as [|[k0 v0] d IH]; simpl; [lia|].
  destruct (str_eqb k0 k); simpl; lia.
Qed.

(** ** The summary loop *)

Lemma tally_counts acc r :
  fst (tally acc r)
  = dict_set (fst acc) (ProbeResult.status r)
             (dict_get (fst acc) (ProbeResult.status r) 0 + 1).
Proof.
  destruct acc as [c d]. unfold tally.
  destruct (existsb _ _); reflexivity.
Qed.

Lemma tally_dead acc r :
  snd (tally acc r)
  = if is_dead r then snd acc ++ [ProbeResult.url r] else snd acc.
Proof.
  destruct acc as [c d]. unfold tally, is_dead. simpl.
  rewrite orb_false_r. destruct (_ || _); reflexivity.
Qed.

Lemma summarise_snoc rs r : summarise (rs ++ [r]) = tally (summarise rs) r.
Proof. unfold summarise. rewrite fold_left_app. reflexivity. Qed.

Lemma summarise_counts rs st :
  dict_get (fst (summarise rs)) st 0 = occurrences st rs.
Proof.
  unfold occurrences.
  induction rs as [|r rs IH] using rev_ind; [reflexivity|].
  rewrite summarise_snoc, tally_counts, dict_get_set, filter_app, length_app.
  simpl. destruct (str_eqb (ProbeResult.status r) st) eqn:E; simpl.
  - apply str_eqb_eq in E. rewrite <- E in IH. rewrite IH, <- E. reflexivity.
  - rewrite IH. lia.
Qed.

Lemma summarise_sum rs : list_sum (map snd (fst (summarise rs))) = length rs.
Proof.
  induction rs as [|r rs IH] using rev_ind; [reflexivity|].
  rewrite summarise_snoc, tally_counts, length_app. simpl.
  pose proof (dict_set_sum (fst (summarise rs)) (ProbeResult.status r)
                (dict_get (fst (summarise rs)) (ProbeResult.status r) 0 + 1)).
  lia.
Qed.

Lemma summarise_keys rs st :
  In st (map fst (fst (summarise rs)))
  <-> exists r, In r rs /\ ProbeResult.status r = st.
Proof.
  induction rs as [|r rs IH] using rev_ind.
  - simpl. split; [tauto | intros (r & [] & _)].
  - rewrite summarise_snoc, tally_counts, dict_set_keys, IH. split.
    + intros [-> | (r' & I & E)].
      * exists r; split; [apply in_or_app; right; left|]; reflexivity.
      * exists r'; split; [apply in_or_app; left|]; assumption.
    + intros (r' & I & E). apply in_app_or in I.
      destruct I as [I | [-> | []]]; [right; exists r'|left]; auto.
Qed.

Lemma summarise_NoDup rs : NoDup (map fst (fst (summarise rs))).
Proof.
  induction rs as [|r rs IH] using rev_ind; [constructor|].
  rewrite summarise_snoc, tally_counts. apply dict_set_NoDup, IH.
Qed.

Lemma summarise_dead rs :
  snd (summarise rs) = map ProbeResult.url (filter is_dead rs).
Proof.
  induction rs as [|r rs IH] using rev_ind; [reflexivity|].
  rewrite summarise_snoc, tally_dead, filter_app, map_app, IH. simpl.
  destruct (is_dead r); simpl; [reflexivity | rewrite app_nil_r; reflexivity].
Qed.

(** The report of a batch against a mocked remote side: the summary of
    results that are, up to their order, the results of the URLs. *)
Lemma batch_report_mocked self mock urls completion :
  (0 < max_workers self)%Z ->
  Permutation completion (seq 0 (length urls)) ->
  exists results rs,
    batch_report self (mocked mock) completion urls
    = Return (summarise results)
    /\ Permutation results rs
    /\ map ProbeResult.url rs = urls
    /\ map (fun u => snd (check_repo self (mocked mock) u)) urls
       = map Return rs.
Proof.
  intros W P.
  destruct (mocked_results self mock urls) as (rs & E & U & _).
  destruct (batch_all_return _ self (mocked mock) completion urls
              (Some progress_callback) [] rs W E) as (R & _ & _).
  assert (Lrs : length rs = length urls).
  { rewrite <- (length_map Return rs), <- E, length_map. reflexivity. }
  exists (as_completed rs completion), rs.
  unfold batch_report. rewrite R. repeat split; auto.
  apply as_completed_perm. rewrite Lrs. exact P.
Qed.

Lemma map_Return_inj (a b : list ProbeResult.t) :
  map Return a = map Return b -> a = b.
Proof.
  revert b; induction a as [|x a IH]; intros [|y b]; simpl;
    try discriminate; [reflexivity|].
  intros H; inversion H; f_equal; auto.
Qed.

(** C6: in the report built from a list of results, the statuses that
    appear are exactly those that occurred, each once and with the number of
    its occurrences; the counts sum to the number of results, which for the
    results of a batch is the number of input URLs; and the dead links are
    the urls of the results whose status is [NOT_FOUND] or [ERROR], in the
    order of the results. *)
Theorem summary_counts_and_dead_links results :
  let status_counts := fst (summarise results) in
  let dead_links := snd (summarise results) in
  (forall st, In st (map fst status_counts)
              <-> exists r, In r results /\ ProbeResult.status r = st)
  /\ NoDup (map fst status_counts)
  /\ (forall st, dict_get status_counts st 0 = occurrences st results)
  /\ list_sum (map snd status_counts) = length results
  /\ dead_links
     = map ProbeResult.url
         (filter (fun r => str_eqb (ProbeResult.status r) (py "NOT_FOUND")
                           || str_eqb (ProbeResult.status r) (py "ERROR"))
                 results)
  /\ (forall self mock urls completion,
        (0 < max_workers self)%Z ->
        Permutation completion (seq 0 (length urls)) ->
        exists status_counts' dead_links',
          batch_report self (mocked mock) completion urls
          = Return (status_counts', dead_links')
          /\ list_sum (map snd status_counts') = length urls).
Proof.
  intros status_counts dead_links. repeat split.
  - apply summarise_keys.
  - apply summarise_keys.
  - apply summarise_NoDup.
  - apply summarise_counts.
  - apply summarise_sum.
  - apply summarise_dead.
  - intros self mock urls completion W P.
    destruct (batch_report_mocked self mock urls completion W P)
      as (rs' & rs & B & Pr & U & _).
    exists (fst (summarise rs')), (snd (summarise rs')).
    rewrite <- surjective_pairing. split; [exact B|].
    rewrite summarise_sum, (Permutation_length Pr), <- U, length_map.
    reflexivity.
Qed.

Lemma summary_counts_and_dead_links_witness :
  Permutation [1; 0] (seq 0 2)
  /\ exists status_counts dead_links,
       batch_report (init stock_requests None 10) (mocked mock_timeout_ab) [1; 0]
                    [url_ab; url_cd]
       = Return (status_counts, dead_links)
       /\ list_sum (map snd status_counts) = 2.
Proof.
  split; [apply perm_swap|].
  apply (proj2 (proj2 (proj2 (proj2 (proj2
           (summary_counts_and_dead_links []))))) (init stock_requests None 10)
           mock_timeout_ab [url_ab; url_cd] [1; 0]).
  - reflexivity.
  - apply perm_swap.
Defined.

Example summary_of_spec_example :
  batch_report (init stock_requests None 10)
    (mocked (fun req =>
               if str_eqb (req_url req) (api_url_of (py "golang") (py "go"))
               then HttpResponse 200 [] else HttpResponse 404 []))
    [1; 0; 2]
    [py "github.com/golang/go"; py "github.com/doesnotexist404xyz/repo";
     py "not-a-url"]
  = Return ([(py "NOT_FOUND", 1); (py "EXISTS", 1); (py "INVALID_URL", 1)],
            [py "github.com/doesnotexist404xyz/repo"]).
Proof. reflexivity. Qed.

(** C8, as the code has it: two runs of a batch over the same URLs against
    the same mocked remote side, whatever the two completion orders, give
    reports with the same statuses and the same count for every status, and
    dead-link lists that hold the same URLs the same number of times; the
    order of the dead links follows the completion order of each run. *)
Theorem reports_agree_up_to_order self mock urls completion1 completion2 :
  (0 < max_workers self)%Z ->
  Permutation completion1 (seq 0 (length urls)) ->
  Permutation completion2 (seq 0 (length urls)) ->
  exists counts1 dead1 counts2 dead2,
    batch_report self (mocked mock) completion1 urls = Return (counts1, dead1)
    /\ batch_report self (mocked mock) completion2 urls
       = Return (counts2, dead2)
    /\ (forall st, dict_get counts1 st 0 = dict_get counts2 st 0)
    /\ Permutation (map fst counts1) (map fst counts2)
    /\ Permutation dead1 dead2.
Proof.
  intros W P1 P2.
  destruct (batch_report_mocked self mock urls completion1 W P1)
    as (r1 & rs1 & B1 & Pr1 & _ & E1).
  destruct (batch_report_mocked self mock urls completion2 W P2)
    as (r2 & rs2 & B2 & Pr2 & _ & E2).
  assert (rs2 = rs1) by (apply map_Return_inj; congruence). subst rs2.
  assert (P : Permutation r1 r2)
    by (eapply perm_trans; [exact Pr1 | apply Permutation_sym, Pr2]).
  exists (fst (summarise r1)), (snd (summarise r1)),
         (fst (summarise r2)), (snd (summarise r2)).
  rewrite <- !surjective_pairing. repeat split; auto.
  - intros st. rewrite !summarise_counts. unfold occurrences.
    apply Permutation_length, Permutation_filter, P.
  - apply NoDup_Permutation; try apply summarise_NoDup.
    intros st. rewrite !summarise_keys.
    split; intros (r & I & E); exists r; split; auto;
      [apply (Permutation_in _ P) | apply (Permutation_in _ (Permutation_sym P))];
      exact I.
  - rewrite !summarise_dead.
    apply Permutation_map, Permutation_filter, P.
Qed.

Lemma reports_agree_up_to_order_witness :
  Permutation [0; 1] (seq 0 2) /\ Permutation [1; 0] (seq 0 2)
  /\ exists counts1 dead1 counts2 dead2,
       batch_report (init stock_requests None 10) (mocked mock_all_404) [0; 1]
                    [url_ab; url_cd] = Return (counts1, dead1)
       /\ batch_report (init stock_requests None 10) (mocked mock_all_404) [1; 0]
                       [url_ab; url_cd] = Return (counts2, dead2)
       /\ (forall st, dict_get counts1 st 0 = dict_get counts2 st 0)
       /\ Permutation (map fst counts1) (map fst counts2)
       /\ Permutation dead1 dead2.
Proof.
  split; [apply Permutation_refl|]. split; [apply perm_swap|].
  apply (reports_agree_up_to_order (init stock_requests None 10) mock_all_404
           [url_ab; url_cd] [0; 1] [1; 0]).
  - reflexivity.
  - apply Permutation_refl.
  - apply perm_swap.
Defined.

(** C8, as the claim has it, fails on two URLs that are both not found: the
    two completion orders give the same counts but the dead links in two
    different orders. *)
Lemma dead_links_follow_completion_order :
  batch_report (init stock_requests None 10) (mocked mock_all_404) [0; 1] [url_ab; url_cd]
  = Return ([(py "NOT_FOUND", 2)], [url_ab; url_cd])
  /\ batch_report (init stock_requests None 10) (mocked mock_all_404) [1; 0] [url_ab; url_cd]
     = Return ([(py "NOT_FOUND", 2)], [url_cd; url_ab])
  /\ [url_ab; url_cd] <> [url_cd; url_ab].
Proof. repeat split; try reflexivity. discriminate. Qed.

(** ** The url of a result *)

Lemma classify_url url owner repo got r :
  classify url owner repo got = Return r -> ProbeResult.url r = url.
Proof.
  unfold classify, bind.
  destruct got as [[st js]|e]; [|discriminate]. cbn [status_code json].
  destruct (st =? 200)%Z.
  - destruct js as [v|e]; [destruct v|]; simpl; try discriminate.
    intros H; inversion H; reflexivity.
  - destruct (st =? 404)%Z; [intros H; inversion H; reflexivity|].
    destruct (st =? 403)%Z; intros H; inversion H; reflexivity.
Qed.

Lemma check_repo_url self net url r :
  snd (check_repo self net url) = Return r -> ProbeResult.url r = url.
Proof.
  unfold check_repo.
  destruct (extract_repo_info url) as [[owner|] [repo|]];
    try (intros H; inversion H; reflexivity).
  destruct (negb (truthy owner) || negb (truthy repo));
    [intros H; inversion H; reflexivity|].
  cbn [snd]. unfold try_except_request.
  destruct (classify url owner repo _) as [r'|e] eqn:C.
  - intros H; inversion H; subst r'. eapply classify_url; exact C.
  - destruct (is_request_exception e); intros H; inversion H; reflexivity.
Qed.

(** C10, as the code has it: the [url] of a result, whatever its status, is
    the string [check_repo] was given, unchanged; so each dead link is one
    of the URLs passed to the batch, and these are the lines of the file
    after [strip], not the lines themselves. *)
Theorem result_url_is_input_url self url :
  (forall net r,
     snd (check_repo self net url) = Return r -> ProbeResult.url r = url)
  /\ (forall mock,
        exists r, snd (check_repo self (mocked mock) url) = Return r
                  /\ In (ProbeResult.status r) status_kinds
                  /\ ProbeResult.url r = url)
  /\ (forall mock lines completion,
        (0 < max_workers self)%Z ->
        Permutation completion (seq 0 (length (read_urls lines))) ->
        exists status_counts dead_links,
          batch_report self (mocked mock) completion (read_urls lines)
          = Return (status_counts, dead_links)
          /\ forall u, In u dead_links ->
                       In u (read_urls lines)
                       /\ exists line, In line lines /\ u = strip line).
Proof.
  repeat split.
  - intros net r. apply check_repo_url.
  - intros mock. apply check_repo_mocked.
  - intros mock lines completion W P.
    destruct (batch_report_mocked self mock (read_urls lines) completion W P)
      as (results & rs & B & Pr & U & _).
    exists (fst (summarise results)), (snd (summarise results)).
    rewrite <- surjective_pairing. split; [exact B|].
    intros u I. rewrite summarise_dead in I.
    apply in_map_iff in I. destruct I as (r & <- & I).
    apply filter_In in I. destruct I as [I _].
    assert (Iu : In (ProbeResult.url r) (read_urls lines)).
    { rewrite <- U. apply in_map, (Permutation_in _ Pr), I. }
    split; [exact Iu|].
    unfold read_urls in Iu. apply in_map_iff in Iu.
    destruct Iu as (line & E & Il). apply filter_In in Il.
    exists line; split; [apply Il | symmetry; exact E].
Qed.

Lemma result_url_is_input_url_witness :
  Permutation [0] (seq 0 (length (read_urls [line_ab])))
  /\ exists status_counts dead_links,
       batch_report (init stock_requests None 10) (mocked mock_all_404) [0]
                    (read_urls [line_ab])
       = Return (status_counts, dead_links)
       /\ forall u, In u dead_links ->
                    In u (read_urls [line_ab])
                    /\ exists line, In line [line_ab] /\ u = strip line.
Proof.
  split; [apply Permutation_refl|].
  apply (proj2 (proj2 (result_url_is_input_url (init stock_requests None 10) url_ab))
           mock_all_404 [line_ab] [0]).
  - reflexivity.
  - apply Permutation_refl.
Defined.

(** C10, as the claim has it, fails on any line with surrounding
    whitespace, the newline that ends a line included: the dead link that
    is reported and printed is the stripped line. *)
Lemma dead_link_is_stripped_line :
  batch_report (init stock_requests None 10) (mocked mock_all_404) [0] (read_urls [line_ab])
  = Return ([(py "NOT_FOUND", 1)], [url_ab])
  /\ url_ab <> line_ab
  /\ main world_one_line
     = ([py "Found 1 GitHub URLs to check...";
         py "[1/1] " ++ ballot_x ++ py " a/b - Repository not found";
         newline :: rule;
         py "SUMMARY";
         rule;
         py "NOT_FOUND: 1";
         newline :: py "Dead/Problematic Links (1):";
         py "  github.com/a/b"],
        Finished).
Proof. repeat split; try reflexivity. discriminate. Qed.

(** ** The command line *)

Lemma read_urls_none lines :
  (forall line, In line lines ->
                strip line = [] \/ contains (py "github.com") line = false) ->
  read_urls lines = [].
Proof.
  intros H. unfold read_urls.
  induction lines as [|line lines IH]; [reflexivity|]. simpl.
  assert (Q : qualifies line = false).
  { unfold qualifies. destruct (H line (or_introl eq_refl)) as [-> | ->];
      [reflexivity | apply andb_false_r]. }
  rewrite Q. apply IH. intros l I; apply H; right; exact I.
Qed.

Lemma strip_blank line : forallb isspace line = true -> strip line = [].
Proof.
  intros B. unfold strip.
  assert (D : drop_while isspace line = []).
  { induction line as [|c line IH]; [reflexivity|]. simpl in B |- *.
    apply andb_true_iff in B. destruct B as [-> B]. apply IH, B. }
  rewrite D. reflexivity.
Qed.

(** C7, as the code has it: without a file argument [main] prints the three
    lines of the usage text and exits with code 1; when opening the file
    raises [FileNotFoundError], [main] prints that the file was not found
    and exits with code 1; any other exception raised by opening the file
    is not caught: it leaves [main], which has printed nothing and has not
    called [sys.exit]; and when every line of the file is blank or lacks
    [github.com], [main] prints that it found no URL and exits with
    code 1. *)
Theorem main_exit_codes w :
  (length (argv w) < 2 ->
   main w
   = ([py "Usage: python github_checker.py <file_with_urls.txt> [github_token]";
       10%N :: py "File should contain one GitHub URL per line";
       py "GitHub token is optional but recommended for higher rate limits"],
      SysExit 1))
  /\ (forall script filename rest e,
        argv w = script :: filename :: rest ->
        open_lines w filename = Raise e ->
        (exc_class_of e = FileNotFoundError ->
         main w = ([py "Error: File '" ++ filename ++ py "' not found"],
                   SysExit 1))
        /\ (exc_class_of e <> FileNotFoundError ->
            main w = ([], Uncaught e)))
  /\ (forall script filename rest lines,
        argv w = script :: filename :: rest ->
        open_lines w filename = Return lines ->
        (forall line, In line lines ->
                      forallb isspace line = true
                      \/ ~ occurs_in (py "github.com") line) ->
        main w = ([py "No GitHub URLs found in the file"], SysExit 1)).
Proof.
  unfold main. split; [|split].
  - destruct (argv w) as [|a [|b rest]]; simpl; try reflexivity. lia.
  - intros script filename rest e A O. rewrite A, O.
    unfold is_file_not_found.
    split; [intros -> ; reflexivity|].
    destruct (exc_class_of e); congruence.
  - intros script filename rest lines A O Q.
    rewrite A, O, read_urls_none; [reflexivity|].
    intros line I. destruct (Q line I) as [B | N].
    + left. apply strip_blank, B.
    + right. destruct (contains (py "github.com") line) eqn:C;
        [|reflexivity].
      exfalso. apply N, occurs_in_iff, C.
Qed.

Lemma main_exit_codes_witness :
  main world_no_argument
  = ([py "Usage: python github_checker.py <file_with_urls.txt> [github_token]";
      10%N :: py "File should contain one GitHub URL per line";
      py "GitHub token is optional but recommended for higher rate limits"],
     SysExit 1)
  /\ main world_missing_file
     = ([py "Error: File 'urls.txt' not found"], SysExit 1)
  /\ main world_no_urls
     = ([py "No GitHub URLs found in the file"], SysExit 1).
Proof.
  split; [|split].
  - apply (proj1 (main_exit_codes world_no_argument)). simpl; lia.
  - apply (proj1 (proj1 (proj2 (main_exit_codes world_missing_file))
                   _ _ _ _ eq_refl eq_refl)).
    reflexivity.
  - refine (proj2 (proj2 (main_exit_codes world_no_urls))
              _ _ _ _ eq_refl eq_refl _).
    intros line [<- | [<- | [<- | []]]].
    + right. intros C. apply occurs_in_iff in C. discriminate C.
    + left. reflexivity.
    + right. intros C. apply occurs_in_iff in C. discriminate C.
Defined.

(** C7, as the claim has it, fails on a file that exists and cannot be
    read: [open] raises [PermissionError], which [main] does not catch;
    [main] prints no error message and does not exit with a code of its
    own, the exception leaves it. *)
Lemma unreadable_file_is_not_handled :
  main world_unreadable_file
  = ([], Uncaught (Exn OtherException
                     (py "[Errno 13] Permission denied: 'urls.txt'"))).
Proof. reflexivity. Qed.

(** * Further properties of the script *)

(** ** [rstrip] and [strip] *)

Lemma drop_while_split f s :
  exists dropped, s = dropped ++ drop_while f s
                  /\ forallb f dropped = true.
Proof.
  induction s as [|c s (d & E & F)]; simpl.
  - exists []; auto.
  - destruct (f c) eqn:Fc.
    + exists (c :: d); simpl. rewrite Fc, F. split; [f_equal; exact E | auto].
    + exists []; auto.
Qed.

Lemma drop_while_head f s c rest :
  drop_while f s = c :: rest -> f c = false.
Proof.
  induction s as [|x s IH]; simpl; [discriminate|].
  destruct (f x) eqn:Fx; [exact IH|].
  intros H; inversion H; subst; exact Fx.
Qed.

Lemma drop_while_all f dropped s :
  forallb f dropped = true ->
  drop_while f (dropped ++ s) = drop_while f s.
Proof.
  induction dropped as [|c d IH]; simpl; [reflexivity|].
  rewrite andb_true_iff. intros [-> F]. apply IH, F.
Qed.


(** What [rstrip] removes is a suffix made of characters of the set. *)
Lemma rstrip_split chars s :
  exists removed, s = rstrip chars s ++ removed
                  /\ forallb (char_in chars) removed = true.
Proof.
  unfold rstrip.
  destruct (drop_while_split (char_in chars) (rev s)) as (d & E & F).
  exists (rev d). split.
  - rewrite <- rev_app_distr, <- E, rev_involutive. reflexivity.
  - rewrite forallb_forall in *. intros x I. apply F, in_rev, I.
Qed.

(** What [rstrip] leaves does not end in a character of the set. *)
Lemma rstrip_last chars s body c :
  rstrip chars s = body ++ [c] -> char_in chars c = false.
Proof.
  unfold rstrip. intros H.
  apply (f_equal (@rev pychar)) in H.
  rewrite rev_involutive, rev_app_distr in H. simpl in H.
  eapply drop_while_head; exact H.
Qed.

(** A string that does not end in a character of the set is left alone,
    also after a suffix made of such characters is added to it. *)
Lemma rstrip_keeps chars body c removed :
  char_in chars c = false -> forallb (char_in chars) removed = true ->
  rstrip chars ((body ++ [c]) ++ removed) = body ++ [c].
Proof.
  intros Fc Fr. unfold rstrip.
  rewrite rev_app_distr, drop_while_all.
  - rewrite rev_app_distr. simpl. rewrite Fc. simpl.
    rewrite rev_involutive. reflexivity.
  - rewrite forallb_forall in *. intros x I. apply Fr, in_rev, I.
Qed.

(** ** The parser, in full *)

(** The text the first pattern matched: after the repo only an optional
    [.git], an optional slash and the end (or a final newline) follow. *)
Lemma pattern_exact_tail s0 s' m :
  matches pattern_exact s0 no_groups s' m ->
  exists owner raw git sl,
    s0 = py "github.com/" ++ owner ++ py "/" ++ raw ++ git ++ sl ++ s'
    /\ (git = [] \/ git = py ".git")
    /\ (sl = [] \/ sl = py "/")
    /\ (s' = [] \/ s' = [newline])
    /\ owner <> [] /\ ~ In slash owner
    /\ raw <> [] /\ ~ In slash raw
    /\ m 1 = Some owner /\ m 2 = Some raw.
Proof.
  unfold pattern_exact; cbn [matches].
  intros (s1 & g1 & [-> ->] & s2 & g2 & (g3 & (w1 & N1 & C1 & -> & ->) & ->)
          & s3 & g4 & [-> ->] & s4 & g5 & (g6 & (w2 & N2 & C2 & -> & ->) & ->)
          & s5 & g7 & O1 & s6 & g8 & O2 & -> & -> & E).
  rewrite !firstn_matched in O1.
  assert (G : exists git, s4 = git ++ s5 /\ (git = [] \/ git = py ".git")
                          /\ g7 = set_group 2 w2 (set_group 1 w1 no_groups)).
  { destruct O1 as [[-> ->]|[-> ->]];
      [exists (py ".git") | exists []]; auto. }
  destruct G as (git & -> & Hg & ->).
  assert (L : exists sl, s5 = sl ++ s6 /\ (sl = [] \/ sl = py "/")
                         /\ g8 = set_group 2 w2 (set_group 1 w1 no_groups)).
  { destruct O2 as [[-> ->]|[-> ->]];
      [exists (py "/") | exists []]; auto. }
  destruct L as (sl & -> & Hs & ->).
  exists w1, w2, git, sl. repeat split; auto.
Qed.

(** Two texts that agree and whose first slash comes after slash-free
    prefixes agree part by part. *)
Lemma first_slash_unique (p q p' q' : pystr) :
  ~ In slash p -> ~ In slash p' ->
  p ++ slash :: q = p' ++ slash :: q' -> p = p' /\ q = q'.
Proof.
  revert p'. induction p as [|x p IH]; intros [|y p'] Np Np' E; simpl in E.
  - inversion E; auto.
  - inversion E; subst. exfalso; apply Np'; left; reflexivity.
  - inversion E; subst. exfalso; apply Np; left; reflexivity.
  - inversion E; subst.
    destruct (IH p') as [-> ->]; auto.
    + intros F; apply Np; right; exact F.
    + intros F; apply Np'; right; exact F.
Qed.

Lemma not_in_rev (c : pychar) (s : pystr) : ~ In c s -> ~ In c (rev s).
Proof. intros N I; apply N, in_rev; exact I. Qed.

(** In a text that ends with a slash-free segment after a slash, followed at
    most by a slash and a final newline, the segment and what precedes the
    slash are determined, when the segment is known not to end in a
    newline. *)
Lemma last_segment_unique (X Y b1 b2 ss sl e : pystr) (l1 l2 : pychar) :
  l1 <> newline ->
  ~ In slash (b1 ++ [l1]) -> ~ In slash (b2 ++ [l2]) ->
  (ss = [] \/ ss = py "/") -> (sl = [] \/ sl = py "/") ->
  (e = [] \/ e = [newline]) ->
  X ++ slash :: (b1 ++ [l1]) ++ ss = Y ++ slash :: (b2 ++ [l2]) ++ sl ++ e ->
  X = Y /\ b1 ++ [l1] = b2 ++ [l2].
Proof.
  intros Nn N1 N2 Hss Hsl He E.
  assert (S1 : l1 <> slash)
    by (intros ->; apply N1, in_or_app; right; left; reflexivity).
  assert (S2 : l2 <> slash)
    by (intros ->; apply N2, in_or_app; right; left; reflexivity).
  assert (R : rev ss ++ rev (b1 ++ [l1]) ++ slash :: rev X
              = rev e ++ rev sl ++ rev (b2 ++ [l2]) ++ slash :: rev Y).
  { apply (f_equal (@rev pychar)) in E.
    rewrite !rev_app_distr in E. simpl in E.
    rewrite !rev_app_distr in E. simpl in E.
    rewrite <- !app_assoc in E. simpl in E.
    rewrite !rev_app_distr. simpl. exact E. }
  assert (K : rev (b1 ++ [l1]) ++ slash :: rev X
              = rev (b2 ++ [l2]) ++ slash :: rev Y).
  { rewrite !rev_app_distr in *. simpl in R |- *.
    destruct Hss as [-> | ->], Hsl as [-> | ->], He as [-> | ->];
      simpl in R; inversion R; subst; try congruence;
      unfold slash, newline in *; congruence. }
  apply first_slash_unique in K; try (apply not_in_rev; assumption).
  destruct K as [K1 K2].
  apply (f_equal (@rev pychar)) in K1, K2.
  rewrite !rev_involutive in K1, K2. auto.
Qed.

Lemma pattern_exact_matches owner repo git sl :
  owner <> [] -> ~ In slash owner -> repo <> [] -> ~ In slash repo ->
  (git = [] \/ git = py ".git") -> (sl = [] \/ sl = py "/") ->
  exists m,
    matches pattern_exact
            (py "github.com/" ++ owner ++ py "/" ++ repo ++ git ++ sl)
            no_groups [] m.
Proof.
  intros N1 C1 N2 C2 Hg Hs. unfold pattern_exact; cbn [matches].
  eexists. eexists _, _. split; [split; reflexivity|].
  eexists _, _. split.
  { eexists. split; [|reflexivity]. exists owner; repeat split; eauto. }
  eexists _, _. split; [split; reflexivity|].
  eexists _, _. split.
  { eexists. split; [|reflexivity]. exists repo; repeat split; eauto. }
  exists sl. eexists. split.
  { destruct Hg as [-> | ->]; [right | left]; split; reflexivity. }
  exists []. eexists. split.
  { destruct Hs as [-> | ->]; [right | left]; split; reflexivity. }
  repeat split; auto.
Qed.

(** X1: a URL that ends in [github.com/<owner>/<repo>], possibly followed by
    [.git], by a slash, or by both, is parsed to exactly that owner and
    repo, whatever precedes [github.com/], provided owner and repo are
    non-empty and free of slashes and the repo name does not end in one of
    the characters [.], [g], [i], [t] or in a newline. *)
Theorem extract_exact_pair (pre owner body : pystr) (c : pychar) (sfx : pystr) :
  owner <> [] -> ~ In slash owner ->
  ~ In slash (body ++ [c]) ->
  char_in (py ".git") c = false -> c <> newline ->
  In sfx [[]; py "/"; py ".git"; py ".git/"] ->
  extract_repo_info
    (pre ++ py "github.com/" ++ owner ++ py "/" ++ (body ++ [c]) ++ sfx)
  = (Some owner, Some (body ++ [c])).
Proof.
  intros No Co Cr Fc Nn Hs.
  assert (D : exists sg ss, sfx = sg ++ ss
                            /\ (sg = [] \/ sg = py ".git")
                            /\ (ss = [] \/ ss = py "/")).
  { destruct Hs as [<- | [<- | [<- | [<- | []]]]];
      [exists [], [] | exists [], (py "/")
       | exists (py ".git"), [] | exists (py ".git"), (py "/")]; auto. }
  destruct D as (sg & ss & -> & Hsg & Hss).
  assert (Nr : body ++ [c] <> []) by (destruct body; discriminate).
  destruct (pattern_exact_matches owner (body ++ [c]) sg ss No Co Nr Cr Hsg Hss)
    as [m0 M0].
  pose proof (@re_search_complete pattern_exact pre _ _ _ M0) as S.
  unfold extract_repo_info, patterns; cbn [first_match].
  destruct (re_search pattern_exact _) as [m|] eqn:E; [|congruence].
  clear S M0 m0. apply re_search_sound in E.
  destruct E as (before & s0 & e & E & M).
  apply pattern_exact_tail in M.
  destruct M as (o & raw & git & sl & -> & Hg & Hsl & He & No' & Co' & Nraw
                 & Craw & -> & ->).
  destruct (exists_last Nraw) as (rb & c2 & ->).
  (* the last segment of either reading of the text *)
  assert (L1 : exists b1 l1, (body ++ [c]) ++ sg = b1 ++ [l1]
                             /\ l1 <> newline /\ ~ In slash (b1 ++ [l1])).
  { destruct Hsg as [-> | ->].
    - exists body, c. rewrite app_nil_r. auto.
    - exists ((body ++ [c]) ++ py ".gi"), 116%N. split; [|split].
      + exact (app_assoc (body ++ [c]) (py ".gi") [116%N]).
      + discriminate.
      + intros I. apply in_app_or in I.
        destruct I as [I | I]; [apply in_app_or in I; destruct I as [I | I]|];
          [exact (Cr I) | |];
          unfold slash in I; simpl in I; intuition discriminate. }
  assert (L2 : exists b2 l2, (rb ++ [c2]) ++ git = b2 ++ [l2]
                             /\ ~ In slash (b2 ++ [l2])).
  { destruct Hg as [-> | ->].
    - exists rb, c2. rewrite app_nil_r. auto.
    - exists ((rb ++ [c2]) ++ py ".gi"), 116%N. split.
      + exact (app_assoc (rb ++ [c2]) (py ".gi") [116%N]).
      + intros I. apply in_app_or in I.
        destruct I as [I | I]; [apply in_app_or in I; destruct I as [I | I]|];
          [exact (Craw I) | |];
          unfold slash in I; simpl in I; intuition discriminate. }
  destruct L1 as (b1 & l1 & E1 & Nl1 & C1).
  destruct L2 as (b2 & l2 & E2 & C2).
  assert (U : (pre ++ py "github.com/" ++ owner) ++ slash :: (b1 ++ [l1]) ++ ss
              = (before ++ py "github.com/" ++ o) ++ slash :: (b2 ++ [l2])
                  ++ sl ++ e).
  { rewrite <- E1, <- E2. rewrite <- !app_assoc. simpl.
    rewrite <- !app_assoc in E. simpl in E. exact E. }
  apply last_segment_unique in U; auto.
  destruct U as [U1 U2].
  (* the owner *)
  assert (O : o = owner).
  { apply (f_equal (@rev pychar)) in U1.
    rewrite !rev_app_distr in U1. simpl in U1.
    rewrite <- !app_assoc in U1. simpl in U1.
    apply first_slash_unique in U1; try (apply not_in_rev; assumption).
    destruct U1 as [U1 _]. apply (f_equal (@rev pychar)) in U1.
    rewrite !rev_involutive in U1. congruence. }
  subst o. cbn [option_map]. f_equal. f_equal.
  (* the repo *)
  rewrite <- E1, <- E2 in U2.
  destruct Hg as [-> | ->], Hsg as [-> | ->].
  - rewrite !app_nil_r in U2. rewrite <- U2.
    rewrite <- (app_nil_r (body ++ [c])) at 1.
    apply rstrip_keeps; auto.
  - rewrite app_nil_r in U2. rewrite <- U2.
    apply rstrip_keeps; auto.
  - exfalso. rewrite app_nil_r in U2.
    change (py ".git") with (py ".gi" ++ [116%N]) in U2.
    rewrite app_assoc in U2. apply app_inj_tail in U2.
    destruct U2 as [_ ->]. discriminate Fc.
  - apply app_inv_tail in U2. rewrite <- U2.
    rewrite <- (app_nil_r (body ++ [c])) at 1.
    apply rstrip_keeps; auto.
Qed.

Lemma extract_exact_pair_witness :
  extract_repo_info (py "https://github.com/rocq-prover/stdlib.git/")
  = (Some (py "rocq-prover"), Some (py "stdlib")).
Proof.
  apply (extract_exact_pair (py "https://") (py "rocq-prover")
           (py "stdli") 98%N (py ".git/")).
  - discriminate.
  - unfold slash; simpl; intuition discriminate.
  - unfold slash; simpl; intuition discriminate.
  - reflexivity.
  - discriminate.
  - simpl; auto.
Defined.

(** X2: the parser returns absent exactly for the strings in which no
    [github.com/<seg1>/<seg2>] with two non-empty slash-free segments
    occurs. *)
Theorem extract_absent_iff (url : pystr) :
  extract_repo_info url = (None, None)
  <-> ~ exists pre seg1 seg2 rest,
          url = pre ++ py "github.com/" ++ seg1 ++ py "/" ++ seg2 ++ rest
          /\ seg1 <> [] /\ ~ In slash seg1
          /\ seg2 <> [] /\ ~ In slash seg2.
Proof.
  split.
  - intros Absent (pre & seg1 & seg2 & rest & -> & N1 & C1 & N2 & C2).
    revert Absent. unfold extract_repo_info, patterns; cbn [first_match].
    destruct (re_search pattern_exact _) as [m|] eqn:E1.
    + destruct (@search_groups_present pattern_exact _ m
                  (or_introl eq_refl) E1) as (o & r & -> & ->).
      discriminate.
    + destruct (@pattern_loose_matches seg1 seg2 rest N1 C1 N2 C2) as [m M].
      pose proof (@re_search_complete pattern_loose pre _ _ _ M) as S.
      destruct (re_search pattern_loose _) as [m'|] eqn:E2; [|congruence].
      destruct (@search_groups_present pattern_loose _ m'
                  (or_intror (or_introl eq_refl)) E2) as (o & r & -> & ->).
      discriminate.
  - intros No.
    destruct (extract_repo_info_cases url)
      as [Absent | (pre & owner & raw & tail & E & ? & ? & ? & ? & _)];
      [exact Absent|].
    exfalso. apply No. exists pre, owner, raw, tail. auto.
Qed.

(** X3: what the parser returns is never half absent: it is absent, or an
    owner and a repo, where the owner is non-empty, neither contains a
    slash, the repo does not end in one of [.], [g], [i], [t], and the text
    [github.com/<owner>/<repo>] occurs in the URL. *)
Theorem extract_result_shape (url : pystr) :
  extract_repo_info url = (None, None)
  \/ exists owner repo,
       extract_repo_info url = (Some owner, Some repo)
       /\ owner <> [] /\ ~ In slash owner /\ ~ In slash repo
       /\ (forall body c, repo = body ++ [c] -> char_in (py ".git") c = false)
       /\ contains (py "github.com/" ++ owner ++ py "/" ++ repo) url = true.
Proof.
  destruct (extract_repo_info_cases url)
    as [Absent | (pre & owner & raw & tail & E & No & Co & Nr & Cr & R)];
    [left; exact Absent | right].
  exists owner, (rstrip (py ".git") raw).
  destruct (rstrip_split (py ".git") raw) as (removed & Eraw & _).
  repeat split; auto.
  - intros I. apply Cr. rewrite Eraw. apply in_or_app. left; exact I.
  - intros body c Eb. eapply rstrip_last; exact Eb.
  - rewrite E. rewrite Eraw at 2.
    replace (py "github.com/" ++ owner ++ py "/"
               ++ (rstrip (py ".git") raw ++ removed) ++ tail)
      with ((py "github.com/" ++ owner ++ py "/" ++ rstrip (py ".git") raw)
              ++ removed ++ tail)
      by (rewrite <- !app_assoc; reflexivity).
    apply contains_app.
Qed.

(** ** Where in the string the pair is taken from *)

Lemma count_starts_ge sub p s :
  startswith sub s = true -> 1 <= count_starts sub (p ++ s).
Proof.
  intros H. induction p as [|c p IH]; simpl.
  - destruct s; simpl in *; rewrite H; lia.
  - lia.
Qed.

(** A text that occurs once occurs at one place. *)
Lemma count_unique sub a x b y :
  count_starts sub (a ++ sub ++ x) = 1 ->
  a ++ sub ++ x = b ++ sub ++ y -> a = b.
Proof.
  revert b. induction a as [|c a IH]; intros [|c' b] C E; simpl in *.
  - reflexivity.
  - exfalso. rewrite E in C. simpl in C.
    pose proof (count_starts_ge sub b (sub ++ y) (startswith_app sub y)).
    rewrite <- E, startswith_app in C. lia.
  - exfalso.
    pose proof (count_starts_ge sub a (sub ++ x) (startswith_app sub x)).
    rewrite E, startswith_app in C. lia.
  - inversion E as [[Ec Et]]. f_equal.
    pose proof (count_starts_ge sub a (sub ++ x) (startswith_app sub x)).
    apply IH; [|exact Et].
    destruct (startswith sub (c :: a ++ sub ++ x)); lia.
Qed.

(** A greedy [[^c]+] takes the whole run when what follows the run can be
    matched by the rest of the pattern. *)
Lemma plus_not_greedy {A} c w s' (k : pystr -> option A) a :
  w <> [] -> ~ In c w ->
  (s' = [] \/ exists t, s' = c :: t) ->
  k s' = Some a ->
  plus_not true c (w ++ s') k = Some a.
Proof.
  intros Nw Cw Hs K.
  assert (Z : plus_not true c s' k = None).
  { destruct Hs as [-> | [t ->]]; simpl; [reflexivity|].
    rewrite N.eqb_refl. reflexivity. }
  induction w as [|x w IH]; [congruence|]. simpl.
  destruct (N.eqb x c) eqn:E.
  { apply N.eqb_eq in E. exfalso; apply Cw; left; auto. }
  destruct w as [|y w].
  - simpl. rewrite Z. exact K.
  - rewrite IH; [reflexivity | discriminate|].
    intros I; apply Cw; right; exact I.
Qed.

(** The second pattern at the place of an occurrence whose second segment
    ends at a slash or at the end of the string. *)
Lemma pattern_loose_at seg1 seg2 rest :
  seg1 <> [] -> ~ In slash seg1 -> seg2 <> [] -> ~ In slash seg2 ->
  (rest = [] \/ exists t, rest = slash :: t) ->
  exists m,
    match_re pattern_loose
             (py "github.com/" ++ seg1 ++ py "/" ++ seg2 ++ rest)
             no_groups (fun _ g => Some g) = Some m
    /\ m 1 = Some seg1 /\ m 2 = Some seg2.
Proof.
  intros N1 C1 N2 C2 Hr.
  exists (set_group 2 seg2 (set_group 1 seg1 no_groups)).
  split; [|split; reflexivity].
  unfold pattern_loose. cbn [match_re]. rewrite strip_prefix_app.
  apply plus_not_greedy; auto.
  { right. exists (seg2 ++ rest). reflexivity. }
  rewrite firstn_matched.
  change (py "/" ++ seg2 ++ rest) with (py "/" ++ (seg2 ++ rest)).
  rewrite strip_prefix_app.
  apply plus_not_greedy; auto.
  rewrite firstn_matched. reflexivity.
Qed.

(** The search starts its match at the first place at which the pattern
    matches. *)
Lemma re_search_skip r pre s0 :
  (forall a x b, pre = a ++ x :: b ->
                 match_re r (x :: b ++ s0) no_groups (fun _ g => Some g)
                 = None) ->
  re_search r (pre ++ s0) = re_search r s0.
Proof.
  induction pre as [|y p IH]; intros H; [reflexivity|]. simpl.
  rewrite (H [] y p eq_refl). simpl. apply IH.
  intros a x b E. apply (H (y :: a) x b). rewrite E. reflexivity.
Qed.

Lemma re_search_here r s m :
  match_re r s no_groups (fun _ g => Some g) = Some m ->
  re_search r s = Some m.
Proof. intros H. destruct s; simpl; rewrite H; reflexivity. Qed.

(** With [github.com/] occurring once, followed by two segments and more,
    the first pattern matches nowhere and the second one at the
    occurrence. *)
Lemma extract_single_occurrence pre seg1 seg2 more :
  seg1 <> [] -> ~ In slash seg1 -> seg2 <> [] -> ~ In slash seg2 ->
  more <> [] -> more <> [newline] ->
  count_starts (py "github.com/")
               (pre ++ py "github.com/" ++ seg1 ++ py "/" ++ seg2
                    ++ slash :: more) = 1 ->
  extract_repo_info
    (pre ++ py "github.com/" ++ seg1 ++ py "/" ++ seg2 ++ slash :: more)
  = (Some seg1, Some (rstrip (py ".git") seg2)).
Proof.
  intros N1 C1 N2 C2 Nm Nn U.
  set (T := seg1 ++ py "/" ++ seg2 ++ slash :: more) in *.
  unfold extract_repo_info, patterns; cbn [first_match].
  destruct (re_search pattern_exact _) as [m|] eqn:E.
  { exfalso. apply re_search_sound in E.
    destruct E as (before & s0 & e & E & M).
    apply pattern_exact_tail in M.
    destruct M as (o & raw & git & sl & -> & Hg & Hsl & He & _ & Co & Nraw
                   & Craw & _).
    pose proof (count_unique _ _ _ _ _ U E) as <-.
    apply app_inv_head in E. apply app_inv_head in E. unfold T in E.
    change (py "/" ++ seg2 ++ slash :: more)
      with (slash :: seg2 ++ slash :: more) in E.
    change (py "/" ++ raw ++ git ++ sl ++ e)
      with (slash :: raw ++ git ++ sl ++ e) in E.
    apply first_slash_unique in E; auto. destruct E as [_ E].
    assert (Cg : ~ In slash (raw ++ git)).
    { intros I. apply in_app_or in I. destruct I as [I|I]; [exact (Craw I)|].
      destruct Hg as [-> | ->]; [contradiction|].
      unfold slash in I; simpl in I; intuition discriminate. }
    rewrite (app_assoc raw git) in E.
    destruct Hsl as [-> | ->].
    - assert (I : In slash ((raw ++ git) ++ [] ++ e)).
      { rewrite <- E. apply in_or_app. right; left; reflexivity. }
      simpl in I. apply in_app_or in I. destruct I as [I|I]; [exact (Cg I)|].
      destruct He as [-> | ->]; [contradiction|].
      unfold slash, newline in I; simpl in I; intuition discriminate.
    - change (py "/" ++ e) with (slash :: e) in E.
      apply first_slash_unique in E; auto. destruct E as [_ E].
      destruct He as [-> | ->]; congruence. }
  destruct (pattern_loose_at seg1 seg2 (slash :: more) N1 C1 N2 C2)
    as (m & M & M1 & M2); [right; eexists; reflexivity|].
  fold T in M.
  rewrite re_search_skip, (re_search_here _ _ _ M), M1, M2; [reflexivity|].
  clear m M M1 M2. intros a x b Ep.
  destruct (match_re pattern_loose (x :: b ++ py "github.com/" ++ T)
                     no_groups (fun _ g => Some g)) as [m'|] eqn:F;
    [|reflexivity].
  exfalso. apply match_re_sound in F.
  destruct F as (s' & g' & F & _). apply pattern_loose_shape in F.
  destruct F as (o & raw & F & _).
  assert (E' : pre ++ py "github.com/" ++ T
               = a ++ py "github.com/" ++ o ++ py "/" ++ raw ++ s').
  { rewrite Ep, <- app_assoc. f_equal. exact F. }
  pose proof (count_unique _ _ _ _ _ U E') as Ea.
  rewrite Ep in Ea. apply (f_equal (@length pychar)) in Ea.
  rewrite length_app in Ea. simpl in Ea. lia.
Qed.

(** C9, as the code has it: a string in which [github.com/<seg1>/<seg2>]
    occurs, with both segments non-empty and free of slashes, is never
    parsed as absent, whatever precedes or follows; and when [github.com/]
    occurs only once in the string and further path segments follow the
    second segment, the pair returned is the two segments themselves, for a
    second segment that does not end in one of [.], [g], [i], [t]. *)
Theorem extract_finds_embedded_repo (pre seg1 seg2 rest : pystr) :
  seg1 <> [] -> ~ In slash seg1 -> seg2 <> [] -> ~ In slash seg2 ->
  let url := pre ++ py "github.com/" ++ seg1 ++ py "/" ++ seg2 ++ rest in
  (exists owner repo,
     extract_repo_info url = (Some owner, Some repo) /\ owner <> [])
  /\ (count_starts (py "github.com/") url = 1 ->
      (exists more, rest = py "/" ++ more /\ more <> [] /\ more <> [10%N])
      ->
      (forall body c, seg2 = body ++ [c] -> char_in (py ".git") c = false) ->
      extract_repo_info url = (Some seg1, Some seg2)).
Proof.
  intros N1 C1 N2 C2 url. split.
  - destruct (extract_repo_info_cases url)
      as [Absent | (before & owner & raw & tail & E & ? & ? & ? & ? & R)].
    + exfalso. revert Absent.
      unfold extract_repo_info, patterns; cbn [first_match].
      destruct (re_search pattern_exact url) as [m|] eqn:E1.
      * destruct (@search_groups_present pattern_exact url m
                    (or_introl eq_refl) E1) as (o & r & -> & ->).
        discriminate.
      * destruct (@pattern_loose_matches seg1 seg2 rest N1 C1 N2 C2)
          as [m M].
        pose proof (@re_search_complete pattern_loose pre _ _ _ M) as S.
        fold url in S.
        destruct (re_search pattern_loose url) as [m'|] eqn:E2;
          [|congruence].
        destruct (@search_groups_present pattern_loose url m'
                    (or_intror (or_introl eq_refl)) E2) as (o & r & -> & ->).
        discriminate.
    + exists owner, (rstrip (py ".git") raw). auto.
  - intros U (more & -> & Nm & Nn) Safe. unfold url in *.
    change (py "/" ++ more) with (slash :: more) in *.
    rewrite (extract_single_occurrence pre seg1 seg2 more); auto.
    destruct (exists_last N2) as (body & c & ->).
    rewrite <- (app_nil_r (body ++ [c])) at 1.
    rewrite rstrip_keeps; auto. eapply Safe; reflexivity.
Qed.

Lemma extract_finds_embedded_repo_witness :
  extract_repo_info (py "see https://github.com/owner/repo/tree/main")
  = (Some (py "owner"), Some (py "repo")).
Proof.
  refine (proj2 (@extract_finds_embedded_repo
                   (py "see https://") (py "owner") (py "repo")
                   (py "/tree/main") _ _ _ _) eq_refl _ _).
  - discriminate.
  - unfold slash; simpl; intuition discriminate.
  - discriminate.
  - unfold slash; simpl; intuition discriminate.
  - exists (py "tree/main"). repeat split; discriminate.
  - intros body c E.
    change (py "repo") with (py "rep" ++ [111%N]) in E.
    apply app_inj_tail in E. destruct E as [_ <-]. reflexivity.
Defined.

(** C9, as the claim has it, fails on a string in which
    [github.com/<seg1>/<seg2>] occurs twice: [github.com/a/b] occurs in it,
    and the pair returned is not taken from [a] and [b] but from the later
    occurrence, the one at which the first pattern matches. *)
Lemma pair_from_a_later_occurrence :
  extract_repo_info (py "github.com/a/b/github.com/c/d")
  = (Some (py "c"), Some (py "d")).
Proof. reflexivity. Qed.

(** ** The prober, in full *)

Lemma classify_status url owner repo got r :
  classify url owner repo got = Return r ->
  In (ProbeResult.status r)
     [py "EXISTS"; py "NOT_FOUND"; py "FORBIDDEN"; py "ERROR"]
  /\ (ProbeResult.status r = py "EXISTS"
      /\ ProbeResult.private r <> None /\ ProbeResult.archived r <> None
      /\ ProbeResult.stars r <> None
      \/ ProbeResult.status r <> py "EXISTS"
         /\ ProbeResult.private r = None /\ ProbeResult.archived r = None
         /\ ProbeResult.stars r = None).
Proof.
  unfold classify, bind.
  destruct got as [[st js]|e]; [|discriminate]. cbn [status_code json].
  destruct (st =? 200)%Z.
  - destruct js as [v|e]; [destruct v|]; simpl; try discriminate.
    intros H; inversion H; subst; simpl. split; [auto|].
    left; repeat split; discriminate.
  - destruct (st =? 404)%Z;
      [intros H; inversion H; subst; simpl; split; [auto|];
       right; repeat split; discriminate|].
    destruct (st =? 403)%Z; intros H; inversion H; subst; simpl;
      (split; [auto 6|]); right; repeat split; discriminate.
Qed.

(** X4: [check_repo] sends at most one request, and which one does not
    depend on what the remote side answers: a GET with timeout 10 and the
    session's headers to the [repos] endpoint of the parsed owner and repo.
    It sends none exactly when its result is [INVALID_URL]. *)
Theorem check_repo_sends_one_request self net url :
  (fst (check_repo self net url) = []
   \/ exists owner repo,
        extract_repo_info url = (Some owner, Some repo)
        /\ owner <> [] /\ repo <> []
        /\ fst (check_repo self net url)
           = [Request (py "https://api.github.com/repos/" ++ owner
                          ++ py "/" ++ repo)
                      (session_headers self) 10])
  /\ (forall net', fst (check_repo self net' url)
                   = fst (check_repo self net url))
  /\ (forall r, snd (check_repo self net url) = Return r ->
                (ProbeResult.status r = py "INVALID_URL"
                 <-> fst (check_repo self net url) = [])).
Proof.
  split; [|split].
  - destruct (check_repo_cases self net url)
      as [-> | (owner & repo & E & No & Nr & ->)]; [left; reflexivity|].
    right. exists owner, repo. auto.
  - intros net'.
    destruct (check_repo_cases self net url)
      as [E | (owner & repo & E & No & Nr & ->)].
    + destruct (check_repo_cases self net' url)
        as [-> | (owner & repo & E' & No & Nr & _)]; [rewrite E; reflexivity|].
      exfalso. revert E. unfold check_repo. rewrite E'.
      rewrite (truthy_nonempty _ No), (truthy_nonempty _ Nr). discriminate.
    + rewrite (check_repo_parsed self net' _ _ _ E No Nr). reflexivity.
  - intros r.
    destruct (check_repo_cases self net url)
      as [-> | (owner & repo & E & No & Nr & ->)]; cbn [fst snd].
    + intros H; inversion H; subst. split; reflexivity.
    + unfold try_except_request.
      destruct (classify url owner repo _) as [r'|e] eqn:C.
      * intros H; inversion H; subst r'.
        apply classify_status in C. destruct C as [C _].
        split; [|discriminate]. intros S. rewrite S in C.
        simpl in C. intuition discriminate.
      * destruct (is_request_exception e); [|discriminate].
        intros H; inversion H; subst; simpl.
        split; discriminate.
Qed.

(** X5: every request of a checker carries the headers of its session: the
    four default headers of a new [requests.Session()] and, after them,
    [Authorization: token <token>] when the checker was built with a
    non-empty token; built without a token, or with an empty one, it sends
    the default headers alone. *)
Theorem requests_carry_token lib token workers net url req :
  In req (fst (check_repo (init lib token workers) net url)) ->
  (forall t, token = Some t -> t <> [] ->
             req_headers req
             = [(py "User-Agent", default_user_agent lib);
                (py "Accept-Encoding", default_accept_encoding lib);
                (py "Accept", py "*/*");
                (py "Connection", py "keep-alive");
                (py "Authorization", py "token " ++ t)])
  /\ (token = None \/ token = Some [] ->
      req_headers req
      = [(py "User-Agent", default_user_agent lib);
         (py "Accept-Encoding", default_accept_encoding lib);
         (py "Accept", py "*/*");
         (py "Connection", py "keep-alive")]).
Proof.
  intros I.
  destruct (check_repo_cases (init lib token workers) net url)
    as [E | (owner & repo & _ & _ & _ & E)]; rewrite E in I; simpl in I;
    [contradiction|].
  destruct I as [<- | []]. cbn [req_headers]. split.
  - intros t -> Nt. unfold init. rewrite (truthy_nonempty _ Nt). reflexivity.
  - intros [-> | ->]; reflexivity.
Qed.

Lemma requests_carry_token_witness :
  req_headers (Request (py "https://api.github.com/repos/golang/go")
                 [(py "User-Agent", py "python-requests/2.31.0");
                  (py "Accept-Encoding", py "gzip, deflate");
                  (py "Accept", py "*/*");
                  (py "Connection", py "keep-alive");
                  (py "Authorization", py "token s3cret")] 10)
  = [(py "User-Agent", default_user_agent stock_requests);
     (py "Accept-Encoding", default_accept_encoding stock_requests);
     (py "Accept", py "*/*");
     (py "Connection", py "keep-alive");
     (py "Authorization", py "token " ++ py "s3cret")].
Proof.
  apply (proj1 (requests_carry_token stock_requests (Some (py "s3cret")) 10
                  (mocked mock_all_404) (py "github.com/golang/go") _
                  (or_introl eq_refl))
           (py "s3cret") eq_refl).
  discriminate.
Defined.

(** X6: an exception leaves [check_repo] only after a request was sent, and
    it is never a [RequestException]: it is what [session.get] or
    [response.json()] (on a 200 response) raised, or the [AttributeError] of
    calling [get] on a JSON body that is not an object. *)
Theorem check_repo_raises_only_uncaught self net url e :
  snd (check_repo self net url) = Raise e ->
  is_request_exception e = false
  /\ exists owner repo,
       extract_repo_info url = (Some owner, Some repo)
       /\ fst (check_repo self net url)
          = [Request (api_url_of owner repo) (session_headers self) 10]
       /\ (net (Request (api_url_of owner repo) (session_headers self) 10)
           = Raise e
           \/ exists resp,
                net (Request (api_url_of owner repo) (session_headers self) 10)
                = Return resp
                /\ status_code resp = 200%Z
                /\ (json resp = Raise e
                    \/ exists v, json resp = Return v
                                 /\ (forall d, v <> PyDict d)
                                 /\ exc_class_of e = AttributeError)).
Proof.
  destruct (check_repo_cases self net url)
    as [-> | (owner & repo & E & No & Nr & ->)]; cbn [fst snd];
    [discriminate|].
  unfold try_except_request.
  destruct (classify url owner repo _) as [r'|e'] eqn:C; [discriminate|].
  destruct (is_request_exception e') eqn:Q; [discriminate|].
  intros H; inversion H; subst e'. split; [exact Q|].
  exists owner, repo. split; [exact E|]. split; [reflexivity|].
  revert C. unfold classify, bind.
  destruct (net _) as [[st js]|e0].
  - cbn [status_code json]. destruct (Z.eqb_spec st 200) as [->|].
    + intros C. right. eexists; split; [reflexivity|]. split; [reflexivity|].
      cbn [json]. destruct js as [v|e1].
      * right. exists v. split; [reflexivity|].
        destruct v; simpl in C; inversion C; subst;
          (split; [discriminate | reflexivity]).
      * left. inversion C; reflexivity.
    + destruct (st =? 404)%Z; [discriminate|].
      destruct (st =? 403)%Z; discriminate.
  - intros C; inversion C; subst. left; reflexivity.
Qed.

Lemma check_repo_raises_only_uncaught_witness :
  snd (check_repo (init stock_requests None 10) net_array_body url_ab)
  = Raise (Exn AttributeError (py "'list' object has no attribute 'get'"))
  /\ is_request_exception
       (Exn AttributeError (py "'list' object has no attribute 'get'"))
     = false.
Proof.
  split; [reflexivity|].
  apply (proj1 (check_repo_raises_only_uncaught (init stock_requests None 10) net_array_body
                  url_ab _ eq_refl)).
Defined.

(** X7: the keys [private], [archived] and [stars] are present in a result
    exactly when its status is [EXISTS]. *)
Theorem optional_keys_iff_exists self net url r :
  snd (check_repo self net url) = Return r ->
  (ProbeResult.status r = py "EXISTS"
   /\ ProbeResult.private r <> None /\ ProbeResult.archived r <> None
   /\ ProbeResult.stars r <> None)
  \/ (ProbeResult.status r <> py "EXISTS"
      /\ ProbeResult.private r = None /\ ProbeResult.archived r = None
      /\ ProbeResult.stars r = None).
Proof.
  destruct (check_repo_cases self net url)
    as [-> | (owner & repo & E & No & Nr & ->)]; cbn [snd].
  - intros H; inversion H; subst; simpl.
    right; repeat split; discriminate.
  - unfold try_except_request.
    destruct (classify url owner repo _) as [r'|e] eqn:C.
    + intros H; inversion H; subst r'.
      apply classify_status in C. apply C.
    + destruct (is_request_exception e); [|discriminate].
      intros H; inversion H; subst; simpl.
      right; repeat split; discriminate.
Qed.

Lemma optional_keys_iff_exists_witness :
  py "NOT_FOUND" <> py "EXISTS"
  /\ ((py "NOT_FOUND" = py "EXISTS" /\ @None pyvalue <> None
       /\ @None pyvalue <> None /\ @None pyvalue <> None)
      \/ (py "NOT_FOUND" <> py "EXISTS" /\ @None pyvalue = None
          /\ @None pyvalue = None /\ @None pyvalue = None)).
Proof.
  split; [discriminate|].
  apply (optional_keys_iff_exists (init stock_requests None 10) (mocked mock_all_404) url_ab
           (ProbeResult.mk url_ab (py "NOT_FOUND")
              (ballot_x ++ py " a/b - Repository not found")
              None None None)).
  reflexivity.
Defined.

(** ** The batch runner, in full *)

Lemma batch_requests (S : Type) self net completion urls
      (pc : option (callback S)) (st : S) :
  (0 < max_workers self)%Z ->
  requests (check_repos_batch self net completion urls pc st)
  = flat_map (fun u => fst (check_repo self net u)) urls.
Proof.
  intros W. unfold check_repos_batch.
  destruct (Z.leb_spec (max_workers self) 0) as [L|_]; [lia|].
  destruct (reap _ _ _ _ _ _ _) as [[r s] n]. simpl.
  induction urls as [|u urls IH]; simpl; [reflexivity|].
  rewrite IH; reflexivity.
Qed.

Lemma catchable_results self net urls :
  (forall req, catchable (net req) = true) ->
  exists rs,
    map (fun u => snd (check_repo self net u)) urls = map Return rs
    /\ map ProbeResult.url rs = urls.
Proof.
  intros C. induction urls as [|u urls (rs & E & U)].
  - exists []; auto.
  - destruct (check_repo_catchable self net u C) as [r Er].
    exists (r :: rs); simpl. rewrite Er, E, U.
    rewrite (check_repo_url self net u r Er). auto.
Qed.

(** X9: when no request fails in a way [check_repo] does not catch, the
    results of a batch are the results of its URLs, each URL once for each
    time it was given, in completion order: the urls of the results are a
    rearrangement of the input, and they are the input itself when the
    probes complete in the order in which they were submitted. *)
Theorem batch_results_are_the_inputs (S : Type) self net completion urls
        (pc : option (callback S)) (st : S) :
  (0 < max_workers self)%Z ->
  Permutation completion (seq 0 (length urls)) ->
  (forall req, catchable (net req) = true) ->
  exists results,
    returned (check_repos_batch self net completion urls pc st)
    = Return results
    /\ Permutation (map ProbeResult.url results) urls
    /\ Permutation (map Return results)
                   (map (fun u => snd (check_repo self net u)) urls)
    /\ (completion = seq 0 (length urls) ->
        map ProbeResult.url results = urls).
Proof.
  intros W P C.
  destruct (catchable_results self net urls C) as (rs & E & U).
  destruct (batch_all_return _ self net completion urls pc st rs W E)
    as (R & _ & _).
  assert (Lrs : length rs = length urls).
  { rewrite <- (length_map Return rs), <- E, length_map. reflexivity. }
  assert (Pr : Permutation (as_completed rs completion) rs).
  { apply as_completed_perm. rewrite Lrs. exact P. }
  exists (as_completed rs completion). split; [exact R|]. repeat split.
  - rewrite <- U. apply Permutation_map, Pr.
  - rewrite E. apply Permutation_map, Pr.
  - intros ->. rewrite <- Lrs, as_completed_in_order. exact U.
Qed.

Lemma batch_results_are_the_inputs_witness :
  exists results,
    returned (check_repos_batch (init stock_requests None 10) (mocked mock_timeout_ab)
                [1; 0] [url_ab; url_cd] (Some recording) [])
    = Return results
    /\ Permutation (map ProbeResult.url results) [url_ab; url_cd].
Proof.
  destruct (batch_results_are_the_inputs _ (init stock_requests None 10)
              (mocked mock_timeout_ab) [1; 0] [url_ab; url_cd]
              (Some recording) [] eq_refl (perm_swap 0 1 [])
              (catchable_mocked mock_timeout_ab))
    as (results & R & P & _).
  exists results. auto.
Defined.

(** X10: when a probe lets an exception out, the batch raises the exception
    of the first such probe in completion order; the callback has then been
    called, and the batch has slept, once for each probe that completed
    before it, and the requests of all the submitted probes have still been
    sent. *)
Theorem batch_stops_at_first_failure (S : Type) self net completion urls
        (pc : option (callback S)) (st : S) done e rest :
  (0 < max_workers self)%Z ->
  as_completed (map (fun u => snd (check_repo self net u)) urls) completion
  = map Return done ++ Raise e :: rest ->
  let run := check_repos_batch self net completion urls pc st in
  returned run = Raise e
  /\ callback_state run = notified (length urls) pc 1 done st
  /\ sleeps run = length done
  /\ requests run = flat_map (fun u => fst (check_repo self net u)) urls.
Proof.
  intros W E run.
  split; [|split; [|split]]; try apply batch_requests; auto;
    unfold run, check_repos_batch;
    destruct (Z.leb_spec (max_workers self) 0) as [L|_]; try lia;
    rewrite map_map, E, reap_stops; reflexivity.
Qed.

Lemma batch_stops_at_first_failure_witness :
  returned (check_repos_batch (init stock_requests None 10) net_array_body [1; 0]
              [url_ab; url_cd] (Some recording) [])
  = Raise (Exn AttributeError (py "'list' object has no attribute 'get'"))
  /\ length (callback_state
               (check_repos_batch (init stock_requests None 10) net_array_body [1; 0]
                  [url_ab; url_cd] (Some recording) [])) = 1
  /\ sleeps (check_repos_batch (init stock_requests None 10) net_array_body [1; 0]
               [url_ab; url_cd] (Some recording) []) = 1
  /\ length (requests
               (check_repos_batch (init stock_requests None 10) net_array_body [1; 0]
                  [url_ab; url_cd] (Some recording) [])) = 2.
Proof.
  destruct (batch_stops_at_first_failure _ (init stock_requests None 10) net_array_body
              [1; 0] [url_ab; url_cd] (Some recording) []
              [ProbeResult.mk url_cd (py "EXISTS") (check_mark ++ py " c/d")
                 (Some (PyBool false)) (Some (PyBool false)) (Some (PyInt 0))]
              (Exn AttributeError (py "'list' object has no attribute 'get'"))
              [] eq_refl eq_refl)
    as (R & C & Sl & Q).
  rewrite R, C, Sl, Q. repeat split.
Defined.

Lemma occurrences_perm st (a b : list ProbeResult.t) :
  Permutation a b -> occurrences st a = occurrences st b.
Proof.
  intros P. unfold occurrences. apply Permutation_length, Permutation_filter, P.
Qed.

Lemma check_repo_request_count self net url r :
  snd (check_repo self net url) = Return r ->
  length (fst (check_repo self net url))
  + (if str_eqb (ProbeResult.status r) (py "INVALID_URL") then 1 else 0) = 1.
Proof.
  destruct (check_repo_cases self net url)
    as [-> | (owner & repo & E & No & Nr & ->)]; cbn [fst snd].
  - intros H; inversion H; subst. reflexivity.
  - unfold try_except_request.
    destruct (classify url owner repo _) as [r'|e] eqn:C.
    + intros H; inversion H; subst r'.
      apply classify_status in C. destruct C as [C _].
      simpl in C. destruct C as [<- | [<- | [<- | [<- | []]]]]; reflexivity.
    + destruct (is_request_exception e); [|discriminate].
      intros H; inversion H; subst; reflexivity.
Qed.

(** X11: in a run in which no request fails in a way [check_repo] does not
    catch, the batch sleeps once per URL, and the requests it sends are one
    for each URL whose result is not [INVALID_URL]: requests and
    [INVALID_URL] results together number as many as the URLs. *)
Theorem batch_sleeps_and_requests (S : Type) self net completion urls
        (pc : option (callback S)) (st : S) :
  (0 < max_workers self)%Z ->
  Permutation completion (seq 0 (length urls)) ->
  (forall req, catchable (net req) = true) ->
  let run := check_repos_batch self net completion urls pc st in
  exists results,
    returned run = Return results
    /\ sleeps run = length urls
    /\ length (requests run) + occurrences (py "INVALID_URL") results
       = length urls.
Proof.
  intros W P C run.
  destruct (catchable_results self net urls C) as (rs & E & U).
  destruct (batch_all_return _ self net completion urls pc st rs W E)
    as (R & _ & Sl).
  assert (Lrs : length rs = length urls).
  { rewrite <- (length_map Return rs), <- E, length_map. reflexivity. }
  assert (Pr : Permutation (as_completed rs completion) rs).
  { apply as_completed_perm. rewrite Lrs. exact P. }
  exists (as_completed rs completion). split; [exact R|]. split.
  - fold run in Sl. rewrite Sl, (Permutation_length Pr). exact Lrs.
  - unfold run. rewrite batch_requests by exact W.
    rewrite (occurrences_perm _ _ _ Pr). clear - E.
    revert rs E. induction urls as [|u urls IH]; intros [|r rs] E;
      simpl in E; try discriminate; [reflexivity|].
    inversion E as [[Er Ers]]. simpl.
    rewrite length_app. unfold occurrences in *. simpl.
    pose proof (check_repo_request_count self net u r Er) as Q.
    specialize (IH rs Ers).
    destruct (str_eqb (ProbeResult.status r) (py "INVALID_URL")); simpl; lia.
Qed.

Lemma batch_sleeps_and_requests_witness :
  exists results,
    returned (check_repos_batch (init stock_requests None 10) (mocked mock_all_404) [1; 0]
                [py "not-a-url"; url_cd] (Some recording) [])
    = Return results
    /\ sleeps (check_repos_batch (init stock_requests None 10) (mocked mock_all_404) [1; 0]
                 [py "not-a-url"; url_cd] (Some recording) []) = 2
    /\ length (requests
                 (check_repos_batch (init stock_requests None 10) (mocked mock_all_404)
                    [1; 0] [py "not-a-url"; url_cd] (Some recording) []))
       + occurrences (py "INVALID_URL") results = 2.
Proof.
  apply (batch_sleeps_and_requests _ (init stock_requests None 10) (mocked mock_all_404)
           [1; 0] [py "not-a-url"; url_cd] (Some recording) []
           eq_refl (perm_swap 0 1 []) (catchable_mocked mock_all_404)).
Defined.

(** ** Reading the file *)








(** ** The summary, in full *)

Lemma str_eqb_sym (a b : pystr) : str_eqb a b = str_eqb b a.
Proof.
  destruct (str_eqb a b) eqn:E.
  - apply str_eqb_eq in E; subst. symmetry; apply str_eqb_refl.
  - destruct (str_eqb b a) eqn:E'; [|reflexivity].
    apply str_eqb_eq in E'; subst. rewrite str_eqb_refl in E; discriminate.
Qed.

Lemma dict_set_keys_order {V} (d : list (pystr * V)) k v :
  map fst (dict_set d k v)
  = if existsb (str_eqb k) (map fst d) then map fst d else map fst d ++ [k].
Proof.
  induction d as [|[k0 v0] d IH]; simpl; [reflexivity|].
  rewrite (str_eqb_sym k k0).
  destruct (str_eqb k0 k); simpl; [reflexivity|].
  rewrite IH. destruct (existsb _ _); reflexivity.
Qed.

Lemma dict_items_by_key {V} (d : list (pystr * V)) (x : V) :
  NoDup (map fst d) ->
  d = map (fun k => (k, dict_get d k x)) (map fst d).
Proof.
  induction d as [|[k0 v0] d IH]; simpl; intros N; [reflexivity|].
  inversion N as [|? ? Hn Hd]; subst.
  rewrite str_eqb_refl. f_equal.
  rewrite (IH Hd) at 1. apply map_ext_in. intros k I.
  destruct (str_eqb k0 k) eqn:E; [|reflexivity].
  apply str_eqb_eq in E; subst. contradiction.
Qed.

Lemma summarise_key_order rs :
  map fst (fst (summarise rs))
  = first_occurrences (map ProbeResult.status rs).
Proof.
  unfold first_occurrences.
  induction rs as [|r rs IH] using rev_ind; [reflexivity|].
  rewrite summarise_snoc, tally_counts, dict_set_keys_order, map_app,
    fold_left_app, IH. reflexivity.
Qed.

(** X13: the status counts list each status that occurs once, in the order
    in which the statuses first occur in the results, each with the number
    of results that have it; this is the order in which [main] prints
    them. *)
Theorem status_counts_in_order_of_first_occurrence results :
  fst (summarise results)
  = map (fun st => (st, occurrences st results))
        (first_occurrences (map ProbeResult.status results)).
Proof.
  rewrite (dict_items_by_key (fst (summarise results)) 0
             (summarise_NoDup results)) at 1.
  rewrite summarise_key_order. apply map_ext.
  intros st. rewrite summarise_counts. reflexivity.
Qed.


Lemma dead_count results :
  length (snd (summarise results))
  = occurrences (py "NOT_FOUND") results + occurrences (py "ERROR") results.
Proof.
  rewrite summarise_dead, length_map. unfold occurrences, is_dead.
  induction results as [|r rs IH]; [reflexivity|]. simpl.
  destruct (str_eqb (ProbeResult.status r) (py "NOT_FOUND")) eqn:E1,
           (str_eqb (ProbeResult.status r) (py "ERROR")) eqn:E2;
    simpl; try lia.
  apply str_eqb_eq in E1, E2. rewrite E1 in E2. discriminate.
Qed.

(** X14: the number of dead links is the number of [NOT_FOUND] results plus
    the number of [ERROR] results; the summary is three heading lines, one
    line per status that occurs, and, only when there is a dead link, a
    heading and one line per dead link. *)
Theorem dead_links_and_summary_lines results :
  let dead := occurrences (py "NOT_FOUND") results
              + occurrences (py "ERROR") results in
  length (snd (summarise results)) = dead
  /\ length (print_summary results [])
     = 3 + length (first_occurrences (map ProbeResult.status results))
       + match dead with 0 => 0 | Datatypes.S _ => 1 + dead end.
Proof.
  intros dead.
  assert (D : length (snd (summarise results)) = dead)
    by apply dead_count.
  split; [exact D|].
  rewrite <- summarise_key_order. unfold print_summary.
  destruct (summarise results) as [counts dl]. cbn [fst snd] in D |- *.
  rewrite <- D.
  destruct dl as [|d dl]; repeat rewrite ?length_app, ?length_map;
    cbn [length]; repeat rewrite ?length_app, ?length_map; cbn [length];
    clear; unfold pystr; lia.
Qed.

(** ** [main], in full *)







